(** * The L language client: supervisor of the language server

    A shallow embedding of [client/src/extension.ts]: the module-level
    variables, the executable lookup done by [activate], the error handler
    handed to the language client, the status bar reflection, the debounced
    configuration listener, [restartServer] and [deactivate].

    The extension is single threaded and event driven.  Every callback of the
    source is a computation in a state-and-exception monad over a [World]
    (the module variables together with the part of the host they act on),
    and every [await] of the source is a suspension point: the suspended
    invocation is kept in the world and resumed by a later event. *)

From Stdlib Require Import Ascii String ZArith Lia.
From stdpp Require Import base strings gmap list pretty.

Set Default Proof Using "Type".
Set Warnings "-clear-no-such-hyp".
Open Scope string_scope.
Open Scope list_scope.

(** ** JavaScript values the extension handles *)

(** Strings are sequences of code units below 256.  [isWhiteSpace] is the
    set [String.prototype.trim] strips, restricted to that range: TAB, LF,
    VT, FF, CR, SPACE and NBSP. *)
Definition isWhiteSpace (c : ascii) : bool :=
  let n := nat_of_ascii c in
  bool_decide (n = 9 ∨ n = 10 ∨ n = 11 ∨ n = 12 ∨ n = 13 ∨ n = 32 ∨ n = 160)%nat.

Fixpoint trimStart (s : string) : string :=
  match s with
  | String c r => if isWhiteSpace c then trimStart r else s
  | EmptyString => EmptyString
  end.

Definition trimEnd (s : string) : string := String.rev (trimStart (String.rev s)).

Definition trim (s : string) : string := trimEnd (trimStart s).

(** Truthiness of a string: every string but the empty one. *)
Definition truthy (s : string) : bool := negb (bool_decide (s = "")).

(** [s.includes(sub)]. *)
Fixpoint includes (sub s : string) : bool :=
  String.prefix sub s ||
  match s with
  | String _ r => includes sub r
  | EmptyString => false
  end.

(** The one-character string holding a double quote. *)
Definition dquote : string := String (ascii_of_nat 34) EmptyString.

(** [a || b] on strings. *)
Definition orElse (a b : string) : string := if truthy a then a else b.

(** [Error] objects: [name], [message] and the optional [stack]. *)
Record Error := mkError {
  name : string;
  message : string;
  stack : option string
}.

(** What a [throw] or a rejected promise carries: an [Error], or any other
    value, kept as the string [String(v)] gives. *)
Inductive Thrown :=
| ThrownError (e : Error)
| ThrownValue (s : string).

(** [Error.prototype.toString]. *)
Definition Error_toString (e : Error) : string :=
  if bool_decide (name e = "") then message e
  else if bool_decide (message e = "") then name e
  else name e +:+ ": " +:+ message e.

(** The text a template literal gives a caught value. *)
Definition toString (t : Thrown) : string :=
  match t with
  | ThrownError e => Error_toString e
  | ThrownValue s => s
  end.

(** The [TypeError] of a property read on [undefined]. *)
Definition TypeError_undefined (prop : string) : Thrown :=
  ThrownError
    (mkError "TypeError"
       ("Cannot read properties of undefined (reading '" +:+ prop +:+ "')") None).

Inductive completion (A : Type) :=
| Normal (a : A)
| Abrupt (t : Thrown).
Arguments Normal {A} a.
Arguments Abrupt {A} t.

(** ** The Node.js side: environment, file system, [path], [os] *)

Record Node := mkNode {
  (** [process.env] *)
  env : gmap string string;
  (** [__dirname] *)
  dirname : string;
  (** [os.platform()] *)
  platform : string;
  (** [fs.existsSync]; the source guards each call with [try]/[catch], so a
      throwing check is part of the model *)
  existsSync : string → completion bool;
  (** [path.join], [path.normalize], [path.sep] *)
  path_join : list string → string;
  path_normalize : string → string;
  path_sep : string;
  (** Node documents that [path.join] returns ["."] and never a zero-length
      string *)
  path_join_nonempty : ∀ segments, path_join segments ≠ ""
}.

(** ** The language client library *)

(** [State] of vscode-languageclient. *)
Inductive State := Stopped | Starting | Running.

Global Instance State_eq_dec : EqDecision State.
Proof. solve_decision. Defined.

(** [State[s]], the reverse mapping of the enum. *)
Definition State_name (s : State) : string :=
  match s with
  | Stopped => "Stopped"
  | Starting => "Starting"
  | Running => "Running"
  end.

Inductive ErrorAction := Continue | Shutdown.
Inductive CloseAction := DoNotRestart | Restart.

(** [StateChangeEvent]: the library hands the subscribers only the two
    states. *)
Record StateChangeEvent := mkStateChange {
  oldState : State;
  newState : State
}.

(** The [LanguageClient] object: its public [state] and the options it was
    constructed with ([serverOptions.run], copied to [debug], and the
    [initializationOptions]).  The options are fixed by the constructor. *)
Record LanguageClient := mkClient {
  state : State;
  command : string;
  options_env : gmap string string;
  maxProblems : Z
}.

(** ** The host (VS Code) *)

Record StatusBarItem := mkStatusBarItem {
  text : string;
  tooltip : string;
  (** [undefined], or the id of a [ThemeColor] *)
  color : option string;
  shown : bool
}.

(** The settings of section [l-language-server] that [activate] reads;
    [None] is a missing setting. *)
Record Configuration := mkConfiguration {
  serverPath : option string;
  maxNumberOfProblems : option Z
}.

(** [ConfigurationChangeEvent]: the one method of the interface. *)
Record ConfigurationChangeEvent := mkConfigurationChange {
  affectsConfiguration : string → bool
}.

(** Handles of [setTimeout]. *)
Definition Timeout := nat.

(** Calls into the language client and the host, recorded in the order made. *)
Inductive Call :=
| CallStart (cmd : string)          (* client.start(), spawning [cmd] *)
| CallStop                          (* client.stop() *)
| CallShowErrorMessage (msg : string)
| CallWithProgress (title : string)
| CallSetTimeout (t : Timeout) (ms : nat)
| CallClearTimeout (t : Timeout).

Global Instance Call_eq_dec : EqDecision Call.
Proof. solve_decision. Defined.

(** The [await]s of the source, by line.  A suspended invocation of
    [activate] or [restartServer] sits at one of them. *)
Inductive Await :=
| AwaitActivateStart       (* activate, line 307: await client.start() *)
| AwaitStop                (* restartServer, line 452: await client.stop() *)
| AwaitStarting            (* line 459: the promise over onDidChangeState *)
| AwaitStopAfterStarting   (* line 477: await client.stop() *)
| AwaitStart               (* line 491: await client.start() *)
| AwaitReady               (* line 494: the promise over onDidChangeState *)
| AwaitDeactivateStop.     (* deactivate, line 351: client.stop().then(...) *)

Global Instance Await_eq_dec : EqDecision Await.
Proof. solve_decision. Defined.

(** ** The world *)

Record World := mkWorld {
  (* the module-level variables, lines 43-68; [configChangeListener] is
     assigned once and never read, so it is left out *)
  client : option LanguageClient;
  statusBarItem : option StatusBarItem;
  outputChannel : option (list string);
  configChangeTimer : option Timeout;
  isDisposing : bool;
  (* the host *)
  configuration : Configuration;
  now : nat;                          (* clock, in ms *)
  timers : list (Timeout * nat);      (* pending timeouts with their due time *)
  timeoutCount : nat;                 (* next fresh handle *)
  calls : list Call;                  (* calls made so far, oldest first *)
  suspended : list (nat * Await);     (* suspended invocations, oldest first *)
  taskCount : nat                     (* next fresh invocation id *)
}.

(** The module as loaded: every [let] without initialiser is [undefined]. *)
Definition loaded (cfg : Configuration) : World :=
  mkWorld None None None None false cfg 0 [] 0 [] [] 0.

Definition set_client (v : option LanguageClient) (w : World) : World :=
  mkWorld v (statusBarItem w) (outputChannel w) (configChangeTimer w) (isDisposing w)
    (configuration w) (now w) (timers w) (timeoutCount w) (calls w) (suspended w) (taskCount w).
Definition set_statusBarItem (v : option StatusBarItem) (w : World) : World :=
  mkWorld (client w) v (outputChannel w) (configChangeTimer w) (isDisposing w)
    (configuration w) (now w) (timers w) (timeoutCount w) (calls w) (suspended w) (taskCount w).
Definition set_outputChannel (v : option (list string)) (w : World) : World :=
  mkWorld (client w) (statusBarItem w) v (configChangeTimer w) (isDisposing w)
    (configuration w) (now w) (timers w) (timeoutCount w) (calls w) (suspended w) (taskCount w).
Definition set_configChangeTimer (v : option Timeout) (w : World) : World :=
  mkWorld (client w) (statusBarItem w) (outputChannel w) v (isDisposing w)
    (configuration w) (now w) (timers w) (timeoutCount w) (calls w) (suspended w) (taskCount w).
Definition set_isDisposing (v : bool) (w : World) : World :=
  mkWorld (client w) (statusBarItem w) (outputChannel w) (configChangeTimer w) v
    (configuration w) (now w) (timers w) (timeoutCount w) (calls w) (suspended w) (taskCount w).
Definition set_configuration (v : Configuration) (w : World) : World :=
  mkWorld (client w) (statusBarItem w) (outputChannel w) (configChangeTimer w) (isDisposing w)
    v (now w) (timers w) (timeoutCount w) (calls w) (suspended w) (taskCount w).
Definition set_now (v : nat) (w : World) : World :=
  mkWorld (client w) (statusBarItem w) (outputChannel w) (configChangeTimer w) (isDisposing w)
    (configuration w) v (timers w) (timeoutCount w) (calls w) (suspended w) (taskCount w).
Definition set_timers (v : list (Timeout * nat)) (w : World) : World :=
  mkWorld (client w) (statusBarItem w) (outputChannel w) (configChangeTimer w) (isDisposing w)
    (configuration w) (now w) v (timeoutCount w) (calls w) (suspended w) (taskCount w).
Definition set_timeoutCount (v : nat) (w : World) : World :=
  mkWorld (client w) (statusBarItem w) (outputChannel w) (configChangeTimer w) (isDisposing w)
    (configuration w) (now w) (timers w) v (calls w) (suspended w) (taskCount w).
Definition set_calls (v : list Call) (w : World) : World :=
  mkWorld (client w) (statusBarItem w) (outputChannel w) (configChangeTimer w) (isDisposing w)
    (configuration w) (now w) (timers w) (timeoutCount w) v (suspended w) (taskCount w).
Definition set_suspended (v : list (nat * Await)) (w : World) : World :=
  mkWorld (client w) (statusBarItem w) (outputChannel w) (configChangeTimer w) (isDisposing w)
    (configuration w) (now w) (timers w) (timeoutCount w) (calls w) v (taskCount w).
Definition set_taskCount (v : nat) (w : World) : World :=
  mkWorld (client w) (statusBarItem w) (outputChannel w) (configChangeTimer w) (isDisposing w)
    (configuration w) (now w) (timers w) (timeoutCount w) (calls w) (suspended w) v.

(** ** The monad of callbacks: state and exceptions *)

Definition M (A : Type) : Type := World → completion A * World.

Global Instance M_ret : MRet M := λ A a w, (Normal a, w).
Global Instance M_bind : MBind M := λ A B k m w,
  match m w with
  | (Normal a, w') => k a w'
  | (Abrupt t, w') => (Abrupt t, w')
  end.

(** [try { body } catch (error) { handler error }] *)
Definition try_catch {A} (body : M A) (handler : Thrown → M A) : M A := λ w,
  match body w with
  | (Normal a, w') => (Normal a, w')
  | (Abrupt t, w') => handler t w'
  end.

Definition get {A} (f : World → A) : M A := λ w, (Normal (f w), w).
Definition modify (f : World → World) : M unit := λ w, (Normal tt, f w).

(** A completion of the environment, lifted. *)
Definition lift {A} (c : completion A) : M A := λ w, (c, w).

(** The world a callback leaves.  The host drops what a callback throws (and
    a rejection nobody handles); the writes done before stay. *)
Definition exec {A} (m : M A) (w : World) : World := (m w).2.

(** ** Host and client primitives *)

(** [outputChannel.appendLine(line)] *)
Definition appendLine (line : string) : M unit := λ w,
  match outputChannel w with
  | Some lines => (Normal tt, set_outputChannel (Some (lines ++ [line])) w)
  | None => (Abrupt (TypeError_undefined "appendLine"), w)
  end.

Definition call (c : Call) : M unit := modify (λ w, set_calls (calls w ++ [c]) w).

(** [window.showErrorMessage(msg)] *)
Definition showErrorMessage (msg : string) : M unit := call (CallShowErrorMessage msg).

(** Reads the module variable [client], for a use as [client.something]. *)
Definition theClient : M LanguageClient := λ w,
  match client w with
  | Some c => (Normal c, w)
  | None => (Abrupt (TypeError_undefined "state"), w)
  end.

(** Suspends the running invocation at an [await]. *)
Definition suspend (a : Await) : M unit :=
  modify (λ w, set_taskCount (S (taskCount w)) (set_suspended (suspended w ++ [(taskCount w, a)]) w)).

(** [await client.start()]: the call, then the suspension. *)
Definition client_start (a : Await) : M unit :=
  c ← theClient; call (CallStart (command c));; suspend a.

(** [await client.stop()] *)
Definition client_stop (a : Await) : M unit :=
  _ ← theClient; call CallStop;; suspend a.

(** [setTimeout(callback, ms)].  The extension has one timer callback
    ([configChangeTimer_callback] below), so a pending timeout is its handle
    and its due time.  Handles are objects, hence always truthy. *)
Definition setTimeout (ms : nat) : M Timeout := λ w,
  let t := timeoutCount w in
  (Normal t,
   set_timeoutCount (S t)
     (set_timers (timers w ++ [(t, (now w + ms)%nat)])
        (set_calls (calls w ++ [CallSetTimeout t ms]) w))).

(** [clearTimeout(t)] *)
Definition clearTimeout (t : Timeout) : M unit :=
  modify (λ w, set_timers (filter (λ p, p.1 ≠ t) (timers w))
                 (set_calls (calls w ++ [CallClearTimeout t]) w)).

(** An assignment to a property of [statusBarItem]. *)
Definition withStatusBarItem (f : StatusBarItem → StatusBarItem) : M unit := λ w,
  match statusBarItem w with
  | Some item => (Normal tt, set_statusBarItem (Some (f item)) w)
  | None => (Abrupt (TypeError_undefined "text"), w)
  end.

(** ** [updateStatusBar], lines 369-392 *)

(** The [switch] of lines 375-391: what the item shows for a state. *)
Definition statusFor (s : State) (item : StatusBarItem) : StatusBarItem :=
  match s with
  | Starting =>
      mkStatusBarItem "$(sync~spin) L Language Server"
        "L Language Server is starting..." None (shown item)
  | Running =>
      mkStatusBarItem "$(check) L Language Server"
        "L Language Server is running" None (shown item)
  | Stopped =>
      mkStatusBarItem "$(x) L Language Server"
        "L Language Server has stopped"
        (Some "statusBarItem.errorForeground") (shown item)
  end.

Definition updateStatusBar (s : State) : M unit :=
  disposing ← get isDisposing;
  if disposing : bool then mret tt
  else withStatusBarItem (statusFor s).

(** The subscriber of line 278: [updateStatusBar(state.newState)]. *)
Definition stateChangeListener (e : StateChangeEvent) : M unit :=
  updateStatusBar (newState e).

(** ** The error handler of the client options, lines 242-263 *)

(** [error(error, message, count)]; [message_json] is the text
    [JSON.stringify(message)] gives. *)
Definition errorHandler_error (error : Error) (message_json : string) (count : Z)
  : M ErrorAction :=
  appendLine ("[ERROR] LSP Error (" +:+ pretty count +:+ "): "
              +:+ orElse (message error) (Error_toString error));;
  appendLine ("[ERROR] Message: " +:+ message_json);;
  appendLine ("[ERROR] Stack: "
              +:+ orElse (default "" (stack error)) "No stack trace available");;
  (if bool_decide (5 ≤ count)%Z then
     showErrorMessage
       ("L Language Server encountered " +:+ pretty count
        +:+ " errors. Check the " +:+ dquote +:+ "L Language" +:+ dquote
        +:+ " output channel for details.")
   else mret tt);;
  mret Continue.

Definition errorHandler_closed : M CloseAction :=
  appendLine "[ERROR] LSP connection closed, attempting to restart...";;
  mret Restart.

(** ** [handleConfigurationChange], lines 397-418 *)

Definition handleConfigurationChange (event : ConfigurationChangeEvent) : M unit :=
  if affectsConfiguration event "l-language-server" then
    if affectsConfiguration event "l-language-server.trace.server" then
      appendLine "[INFO] Trace configuration changed, no restart needed"
    else
      appendLine "[INFO] Configuration changed, scheduling server restart";;
      pending ← get configChangeTimer;
      match pending with
      | Some t => clearTimeout t
      | None => mret tt
      end;;
      t ← setTimeout 1000;
      modify (set_configChangeTimer (Some t))
  else mret tt.

(** ** [restartServer], lines 423-522 *)

(** The [catch] of line 514. *)
Definition restartServer_catch (error : Thrown) : M unit :=
  let errorMessage := "Failed to restart L Language Server: " +:+ toString error in
  appendLine ("[ERROR] " +:+ errorMessage);;
  match error with
  | ThrownError e => appendLine ("[ERROR] Error stack: " +:+ default "undefined" (stack e))
  | ThrownValue _ => mret tt
  end;;
  showErrorMessage errorMessage.

(** The [catch] of line 484. *)
Definition restartServer_waitCatch (error : Thrown) : M unit :=
  appendLine ("[WARN] Server failed to start during wait: " +:+ toString error).

(** Lines 489-491: log, call [client.start()], suspend. *)
Definition startNewInstance : M unit :=
  appendLine "[INFO] Starting new server instance...";;
  client_start AwaitStart.

(** The function up to its first [await].  [window.withProgress] runs its
    task at once, so this prefix is one uninterrupted stretch. *)
Definition restartServer : M unit :=
  disposing ← get isDisposing;
  if disposing : bool then
    appendLine "[WARN] Extension is being disposed, skipping restart"
  else
    c ← get client;
    match c with
    | None => appendLine "[WARN] Cannot restart server: client not initialized"
    | Some c =>
        let currentState := state c in
        appendLine ("[INFO] Restarting L Language Server (current state: "
                    +:+ State_name currentState +:+ ")");;
        try_catch
          (call (CallWithProgress "Restarting L Language Server");;
           match currentState with
           | Running =>
               appendLine "[INFO] Stopping current server instance...";;
               client_stop AwaitStop
           | Starting =>
               appendLine
                 "[WARN] Server is currently starting, waiting for it to complete...";;
               suspend AwaitStarting
           | Stopped => startNewInstance
           end)
          restartServer_catch
    end.

(** Lines 475-491, run once the promise of line 459 is resolved. *)
Definition restartServer_afterStarting : M unit :=
  try_catch
    (stopping ←
       try_catch
         (c ← theClient;
          if bool_decide (state c = Running) then
            client_stop AwaitStopAfterStarting;; mret true
          else
            appendLine "[WARN] Server failed to start, proceeding with restart attempt";;
            mret false)
         (λ error, restartServer_waitCatch error;; mret false);
     if stopping : bool then mret tt else startNewInstance)
    restartServer_catch.

(** The subscriber of line 460: does it resolve the promise? *)
Definition restartServer_startingListener (e : StateChangeEvent) : M bool :=
  disposing ← get isDisposing;
  if disposing : bool then mret true
  else match newState e with
       | Running => mret true
       | Stopped => mret true
       | Starting => mret false
       end.

(** The subscriber of line 495.  On [Stopped] the promise is resolved before
    the line is logged. *)
Definition restartServer_readyListener (e : StateChangeEvent) : M bool :=
  disposing ← get isDisposing;
  if disposing : bool then mret true
  else match newState e with
       | Running =>
           appendLine "[INFO] L Language Server restarted successfully";;
           mret true
       | Stopped =>
           try_catch
             (appendLine "[ERROR] L Language Server failed to restart";; mret true)
             (λ _, mret true)
       | Starting => mret false
       end.

(** ** [deactivate], lines 330-364 *)

(** What [deactivate] returns: [undefined] or a promise. *)
Inductive Returned := ReturnsUndefined | ReturnsThenable.

Definition deactivate : M Returned :=
  modify (set_isDisposing true);;
  pending ← get configChangeTimer;
  match pending with
  | Some t =>
      clearTimeout t;;
      modify (set_configChangeTimer None);;
      appendLine "[INFO] Cleared pending configuration change timer"
  | None => mret tt
  end;;
  c ← get client;
  match c with
  | None =>
      appendLine "[INFO] No client to stop";;
      mret ReturnsUndefined
  | Some _ =>
      appendLine "[INFO] Stopping L language server...";;
      try_catch
        (client_stop AwaitDeactivateStop;; mret ReturnsThenable)
        (λ error,
           appendLine ("[ERROR] Error while stopping L language server: "
                       +:+ toString error);;
           mret ReturnsThenable)
  end.

(** ** [activate], lines 78-320 *)

(** The [catch] of line 311. *)
Definition activate_catch (error : Thrown) : M unit :=
  let errorMessage := "Failed to start L Language Server: " +:+ toString error in
  appendLine ("[ERROR] " +:+ errorMessage);;
  match error with
  | ThrownError e => appendLine ("[ERROR] Error stack: " +:+ default "undefined" (stack e))
  | ThrownValue _ => mret tt
  end;;
  showErrorMessage errorMessage;;
  updateStatusBar Stopped.

Section Activation.
Context (node : Node).

Definition executableName : string :=
  "l-language-server" +:+ (if bool_decide (platform node = "win32") then ".exe" else "").

(** Lines 118-159. *)
Definition possiblePaths : list string :=
  [ path_join node [dirname node; ".."; ".."; "target"; "debug"; executableName];
    path_join node [dirname node; ".."; ".."; "target"; "release"; executableName];
    path_join node [dirname node; ".."; ".."; ".."; "target"; "debug"; executableName];
    path_join node [dirname node; ".."; ".."; ".."; "target"; "release"; executableName];
    "l-language-server" ].

(** The loop of lines 166-177; [Some p] is the [break] with
    [serverCommand = p].  (Were the line logged after the assignment to
    throw, the [catch] would log and throw in turn, so the assignment is
    not seen.) *)
Fixpoint findServer (paths : list string) : M (option string) :=
  match paths with
  | [] => mret None
  | possiblePath :: rest =>
      appendLine ("[INFO] Checking path: " +:+ possiblePath);;
      found ←
        try_catch
          (there ← lift (existsSync node possiblePath);
           if there : bool then
             appendLine ("[INFO] Found server at: " +:+ possiblePath);;
             mret (Some possiblePath)
           else mret None)
          (λ error,
             appendLine ("[WARN] Error checking path " +:+ possiblePath +:+ ": "
                         +:+ toString error);;
             mret None);
      match found with
      | Some p => mret (Some p)
      | None => findServer rest
      end
  end.

(** The fallback of lines 180-185. *)
Definition fallbackCommand : M string :=
  appendLine "[INFO] No local server found, using fallback command: l-language-server";;
  mret "l-language-server".

(** The [else] branch of lines 116-186. *)
Definition searchServer : M string :=
  appendLine ("[INFO] Searching for server in possible paths: "
              +:+ String.concat ", " possiblePaths);;
  found ← findServer possiblePaths;
  match found with
  | Some p => if truthy p then mret p else fallbackCommand
  | None => fallbackCommand
  end.

(** Lines 107-186: the command chosen, before it is normalised. *)
Definition selectServer (customServerPath : string) : M string :=
  if truthy customServerPath && bool_decide (trim customServerPath ≠ "") then
    appendLine ("[INFO] Using server from configuration: " +:+ customServerPath);;
    mret customServerPath
  else
    match env node !! "SERVER_PATH" with
    | Some p =>
        if truthy p then
          appendLine ("[INFO] Using server from SERVER_PATH: " +:+ p);;
          mret p
        else searchServer
    | None => searchServer
    end.

(** Lines 101-201: the executable lookup. *)
Definition locateServer (customServerPath : string) : M string :=
  selected ← selectServer customServerPath;
  let serverCommand := path_normalize node (orElse selected "l-language-server") in
  appendLine ("[INFO] Final server command: " +:+ serverCommand);;
  try_catch
    (there ← lift (existsSync node serverCommand);
     if negb there && negb (includes (path_sep node) serverCommand) then
       appendLine ("[WARN] Server command '" +:+ serverCommand
                   +:+ "' not found in PATH. Make sure the server is installed or configured correctly.")
     else mret tt)
    (λ error, appendLine ("[WARN] Could not verify server command: " +:+ toString error));;
  mret serverCommand.

(** [activate] up to its [await client.start()].  The three dynamic
    imports resolve to Node's own modules and are taken as done. *)
Definition activate : M unit :=
  modify (set_outputChannel (Some []));;
  modify (set_statusBarItem
            (Some (mkStatusBarItem "$(sync~spin) L Language Server"
                     "L Language Server is starting..." None true)));;
  appendLine "[INFO] L Language extension is now active!";;
  config ← get configuration;
  let maxProblems := default 100%Z (maxNumberOfProblems config) in
  let customServerPath := default "" (serverPath config) in
  serverCommand ← locateServer customServerPath;
  modify (set_client
            (Some (mkClient Stopped serverCommand
                     (<["RUST_LOG" := "debug"]> (env node)) maxProblems)));;
  try_catch
    (appendLine "[INFO] Starting language client...";;
     call (CallWithProgress "Starting L Language Server");;
     client_start AwaitActivateStart)
    activate_catch.
End Activation.

(** ** Resuming a suspended invocation *)

(** The rest of the function after the [await] at [a], given how the
    awaited promise settled, up to the next [await] or the end. *)
Definition resume (a : Await) (r : completion unit) : M unit :=
  match a, r with
  | AwaitActivateStart, Normal _ =>
      try_catch (appendLine "[INFO] L Language Server started successfully") activate_catch
  | AwaitActivateStart, Abrupt error => activate_catch error
  | AwaitStop, Normal _ =>
      try_catch
        (appendLine "[INFO] Server stopped successfully";; startNewInstance)
        restartServer_catch
  | AwaitStop, Abrupt error => restartServer_catch error
  | AwaitStarting, _ => restartServer_afterStarting
  | AwaitStopAfterStarting, Normal _ =>
      try_catch
        (try_catch (appendLine "[INFO] Server stopped successfully") restartServer_waitCatch;;
         startNewInstance)
        restartServer_catch
  | AwaitStopAfterStarting, Abrupt error =>
      try_catch (restartServer_waitCatch error;; startNewInstance) restartServer_catch
  | AwaitStart, Normal _ => suspend AwaitReady
  | AwaitStart, Abrupt error => restartServer_catch error
  | AwaitReady, _ => mret tt
  | AwaitDeactivateStop, Normal _ => appendLine "[INFO] L language server stopped successfully"
  | AwaitDeactivateStop, Abrupt reason =>
      appendLine ("[ERROR] Failed to stop L language server: " +:+ toString reason)
  end.

(** Is the promise awaited at [a] one of [client.start()] or
    [client.stop()], settled by the client, rather than one resolved by a
    subscriber of the extension? *)
Definition settledByClient (a : Await) : bool :=
  match a with
  | AwaitStarting | AwaitReady => false
  | _ => true
  end.

(** ** The event loop *)

(** What the host, the clock and the language client can do to the
    extension. *)
Inductive Event :=
| EvActivate (node : Node)                   (* the host calls activate *)
| EvCommand                                  (* command l-language.restartServer *)
| EvConfigurationChange (cfg : Configuration) (e : ConfigurationChangeEvent)
                                             (* settings become cfg, the listener gets e *)
| EvElapse (ms : nat)                        (* time passes, due timers fire *)
| EvStateChange (s : State)                  (* the client moves to s and tells its subscribers *)
| EvSettle (id : nat) (r : completion unit)  (* a promise of client.start()/stop() settles *)
| EvError (error : Error) (message_json : string) (count : Z)
                                             (* the client reports a communication fault *)
| EvClosed                                   (* the client reports the connection closed *)
| EvDeactivate.                              (* the host calls deactivate *)

Definition lookupTask (id : nat) (l : list (nat * Await)) : option Await :=
  snd <$> find (λ p, bool_decide (p.1 = id)) l.

Definition removeTask (id : nat) (l : list (nat * Await)) : list (nat * Await) :=
  filter (λ p, p.1 ≠ id) l.

(** A promise of the client settles: the invocation awaiting it goes on. *)
Definition settle (id : nat) (r : completion unit) (w : World) : World :=
  match lookupTask id (suspended w) with
  | Some a =>
      if settledByClient a then
        exec (resume a r) (set_suspended (removeTask id (suspended w)) w)
      else w
  | None => w
  end.

(** The subscribers that suspended invocations of [restartServer] added, in
    the order they subscribed.  Gives the awaits whose promise got resolved:
    their continuations run as microtasks after every subscriber was
    called. *)
Fixpoint notify (e : StateChangeEvent) (waiting : list (nat * Await)) (w : World)
  : list Await * World :=
  match waiting with
  | [] => ([], w)
  | (id, a) :: rest =>
      let listener :=
        match a with
        | AwaitStarting => Some restartServer_startingListener
        | AwaitReady => Some restartServer_readyListener
        | _ => None
        end in
      match listener with
      | None => notify e rest w
      | Some l =>
          match l e w with
          | (Normal true, w') =>
              let '(resolved, w'') :=
                notify e rest (set_suspended (removeTask id (suspended w')) w') in
              (a :: resolved, w'')
          | (_, w') => notify e rest w'
          end
      end
  end.

Definition resumeAll (resolved : list Await) (w : World) : World :=
  foldl (λ w a, exec (resume a (Normal tt)) w) w resolved.

(** The client changes state: [client.state] is updated, then the
    subscribers run, first the one [activate] added. *)
Definition stateChange (s : State) (w : World) : World :=
  match client w with
  | None => w
  | Some c =>
      let e := mkStateChange (state c) s in
      let w1 := set_client (Some (mkClient s (command c) (options_env c) (maxProblems c))) w in
      let w2 := exec (stateChangeListener e) w1 in
      let '(resolved, w3) := notify e (suspended w2) w2 in
      resumeAll resolved w3
  end.

(** The callback of line 413.  [restartServer] is an [async] function: what
    it throws rejects its promise, which nobody handles, and the assignment
    after the call always runs. *)
Definition configChangeTimer_callback : M unit :=
  try_catch restartServer (λ _, mret tt);;
  modify (set_configChangeTimer None).

(** Fires the timeouts of [snapshot] that are due and still pending, oldest
    first (all delays are equal, so that is the order of their due times). *)
Fixpoint fireDue (snapshot : list (Timeout * nat)) (w : World) : World :=
  match snapshot with
  | [] => w
  | (t, due) :: rest =>
      if bool_decide (due ≤ now w)%nat && bool_decide (t ∈ (timers w).*1) then
        fireDue rest
          (exec configChangeTimer_callback
             (set_timers (filter (λ p, p.1 ≠ t) (timers w)) w))
      else fireDue rest w
  end.

Definition elapse (ms : nat) (w : World) : World :=
  let w' := set_now (now w + ms)%nat w in
  fireDue (timers w') w'.

Definition step (w : World) (ev : Event) : World :=
  match ev with
  | EvActivate node => exec (activate node) w
  | EvCommand => exec restartServer w
  | EvConfigurationChange cfg e =>
      exec (handleConfigurationChange e) (set_configuration cfg w)
  | EvElapse ms => elapse ms w
  | EvStateChange s => stateChange s w
  | EvSettle id r => settle id r w
  | EvError error message_json count => exec (errorHandler_error error message_json count) w
  | EvClosed => exec errorHandler_closed w
  | EvDeactivate => exec deactivate w
  end.

Definition run (w : World) (evs : list Event) : World := foldl step w evs.

(** The worlds the extension can be in: the loaded module after any events. *)
Inductive reachable : World → Prop :=
| reachable_loaded cfg : reachable (loaded cfg)
| reachable_step w ev : reachable w → reachable (step w ev).

(** ** A concrete machine for the examples *)

(** [path.join] of a POSIX machine, without the clean-up of dots that
    [path.normalize] does: the non-empty segments joined by a slash. *)
Definition joinSegments (segments : list string) : string :=
  let joined := String.concat "/" (filter (λ s, s ≠ "") segments) in
  if bool_decide (joined = "") then "." else joined.

Definition joinSegments_nonempty segments : joinSegments segments ≠ "".
Proof. unfold joinSegments. case_bool_decide; [discriminate|done]. Qed.

(** A Linux machine on which exactly the paths of [present] exist. *)
Definition linux (vars : gmap string string) (present : list string) : Node :=
  mkNode vars "/ext/dist" "linux"
    (λ p, Normal (bool_decide (p ∈ present)))
    joinSegments (λ p, p) "/" joinSegments_nonempty.

(** The event VS Code builds for a set of changed keys: a section is
    affected when a changed key is the section or lies below it. *)
Definition changeOf (keys : list string) : ConfigurationChangeEvent :=
  mkConfigurationChange (λ section,
    existsb (λ key, bool_decide (key = section) || String.prefix (section +:+ ".") key) keys).

(** No setting of the section is given a value. *)
Definition settings : Configuration := mkConfiguration None None.

(** A machine with no server anywhere and no override. *)
Definition machine : Node := linux ∅ [].

(** [activate] has run up to its [await]. *)
Definition activated : World := step (loaded settings) (EvActivate machine).

(** The first start went through: the client is [Running]. *)
Definition running : World :=
  run activated [EvStateChange Starting; EvStateChange Running; EvSettle 0 (Normal tt)].

(** A world with a debounce timer pending: the server path was just edited. *)
Definition edited : World :=
  step running
    (EvConfigurationChange (mkConfiguration (Some "/opt/l/server") None)
       (changeOf ["l-language-server.serverPath"])).


(** The server was restarted once and runs again: generation 2. *)
Definition restarted : World :=
  run running [EvCommand; EvSettle 1 (Normal tt); EvStateChange Starting;
               EvStateChange Running; EvSettle 2 (Normal tt)].

(** A fault of the transport. *)
Definition anError : Error := mkError "Error" "write EPIPE" None.

(** ** Observations on worlds and runs *)

(** A check that came back true: neither false nor thrown. *)
Definition found (c : completion bool) : bool :=
  match c with
  | Normal there => there
  | Abrupt _ => false
  end.

(** The order of the specification, section 4.1, in its words: the explicit
    path if it is not empty once trimmed; else the environment override if
    present (an empty value counts as absent, as the truthiness test of the
    source has it); else the first candidate that exists; else the bare
    name. *)
Definition documentedOrder (node : Node) (cfg : Configuration) : string :=
  let explicit := default "" (serverPath cfg) in
  if bool_decide (trim explicit ≠ "") then explicit
  else
    match env node !! "SERVER_PATH" with
    | Some override =>
        if bool_decide (override ≠ "") then override
        else default "l-language-server"
               (find (λ p, found (existsSync node p)) (possiblePaths node))
    | None =>
        default "l-language-server"
          (find (λ p, found (existsSync node p)) (possiblePaths node))
    end.

(** Events other than a call of [activate]. *)
Definition afterActivation (ev : Event) : Prop :=
  match ev with
  | EvActivate _ => False
  | _ => True
  end.

Global Instance afterActivation_dec ev : Decision (afterActivation ev).
Proof. destruct ev; simpl; apply _. Defined.

(** The number of restart sequences begun: [restartServer] shows its
    progress notification exactly when it has passed its two guards. *)
Definition restartsBegun (cs : list Call) : nat :=
  length (filter (λ c, c = CallWithProgress "Restarting L Language Server") cs).

(** Is the [await] one of [restartServer]? *)
Definition isRestartAwait (a : Await) : bool :=
  match a with
  | AwaitStop | AwaitStarting | AwaitStopAfterStarting | AwaitStart | AwaitReady => true
  | AwaitActivateStart | AwaitDeactivateStop => false
  end.

(** The restart sequences in flight: the invocations of [restartServer]
    suspended at one of its [await]s. *)
Definition restartsInFlight (w : World) : nat :=
  length (filter (λ p, isRestartAwait p.2 = true) (suspended w)).

(** Is the call one of [window.showErrorMessage]? *)
Definition isAlert (c : Call) : bool :=
  match c with
  | CallShowErrorMessage _ => true
  | _ => false
  end.

(** The number of [window.showErrorMessage] calls. *)
Definition alertsShown (cs : list Call) : nat := length (filter (λ c, isAlert c = true) cs).

(** A run of [n] consecutive faults: the client counts them 1, 2, ..., n. *)
Definition faultRun (error : Error) (message_json : string) (n : nat) : list Event :=
  (λ k, EvError error message_json (Z.of_nat k)) <$> seq 1 n.

(** A configuration change that [handleConfigurationChange] schedules a
    restart for: it passes the two checks of lines 398 and 400. *)
Definition restartRelevant (e : ConfigurationChangeEvent) : Prop :=
  affectsConfiguration e "l-language-server" = true ∧
  affectsConfiguration e "l-language-server.trace.server" = false.

(** The rest of a burst of changes: each comes [gap] ms after the one
    before. *)
Fixpoint burst (rest : list (nat * Configuration * ConfigurationChangeEvent)) : list Event :=
  match rest with
  | [] => []
  | (gap, cfg, e) :: rest => EvElapse gap :: EvConfigurationChange cfg e :: burst rest
  end.

(** Is the call one of [client.start()]? *)
Definition isStart (c : Call) : bool :=
  match c with
  | CallStart _ => true
  | _ => false
  end.

(** The generation of the specification, counted on the calls the client
    received: every [client.start()] begins a new one. *)
Definition generation (w : World) : nat := length (filter (λ c, isStart c = true) (calls w)).

(** An event that belongs to generation [g] reaches the subscriber of line
    278.  The [StateChangeEvent] of the library has no field for a
    generation, so the subscriber is handed [e] alone. *)
Definition deliver (g : nat) (e : StateChangeEvent) : M unit := stateChangeListener e.

(** ** Relations between worlds used by the proofs *)

(** [logging m a]: where the output channel exists, [m] returns [a] and
    does nothing but append lines to it. *)
Definition logging {A} (m : M A) (a : A) : Prop :=
  ∀ w lines, outputChannel w = Some lines →
    ∃ more, m w = (Normal a, set_outputChannel (Some (lines ++ more)) w).

(** What every callback but [activate] guarantees between the world it
    finds and the world it leaves. *)
Record frame (w w' : World) : Prop := mkFrame {
  frame_command : command <$> client w' = command <$> client w;
  frame_channel : is_Some (outputChannel w) → is_Some (outputChannel w');
  frame_disposing : isDisposing w = true → isDisposing w' = true;
  frame_statusBar : isDisposing w = true → statusBarItem w' = statusBarItem w;
  frame_calls :
    ∃ new, calls w' = calls w ++ new ∧
           (∀ cmd, CallStart cmd ∈ new → command <$> client w = Some cmd) ∧
           (isDisposing w = true →
            CallWithProgress "Restarting L Language Server" ∉ new)
}.

(** At most the timeout that [configChangeTimer] holds is pending. *)
Definition timersInv (w : World) : Prop :=
  (timers w).*1 = option_list (configChangeTimer w).

(** Callbacks that touch neither the timers nor the clock. *)
Definition sameTimers (w w' : World) : Prop :=
  timers w' = timers w ∧ configChangeTimer w' = configChangeTimer w ∧ now w' = now w.

(** Worlds in which a request to restart is carried out. *)
Definition ready (w : World) : Prop :=
  is_Some (client w) ∧ is_Some (outputChannel w) ∧ isDisposing w = false ∧ timersInv w.

(** ** Suspended invocations and their ids *)

(** Every suspended invocation has an id handed out earlier. *)
Definition tasksFresh (w : World) : Prop :=
  Forall (λ p, (p.1 < taskCount w)%nat) (suspended w).

(** A callback suspends at most once: it either leaves the suspended
    invocations alone or adds one, under the next id. *)
Definition suspendsAtMostOnce (w w' : World) : Prop :=
  (suspended w' = suspended w ∧ taskCount w' = taskCount w) ∨
  (∃ a, suspended w' = suspended w ++ [(taskCount w, a)] ∧ taskCount w' = S (taskCount w)).

(** Does an invocation suspended at [a] wait for a transition of the client
    (the promises of lines 459 and 494)? *)
Definition waitsForTransition (a : Await) : bool := negb (settledByClient a).

(** The invocations waiting for a transition. *)
Definition waiting (w : World) : list (nat * Await) :=
  filter (λ p, waitsForTransition p.2 = true) (suspended w).

(** The status bar item, if created, shows one of the three renderings of
    [updateStatusBar] and is visible. *)
Definition statusInv (w : World) : Prop :=
  match statusBarItem w with
  | Some item => shown item = true ∧ ∃ s, item = statusFor s item
  | None => True
  end.

(** A callback leaves the status bar item alone or repaints it for a
    state. *)
Definition repaints (w w' : World) : Prop :=
  statusBarItem w' = statusBarItem w ∨ ∃ s, statusBarItem w' = statusFor s <$> statusBarItem w.

(** ** More worlds and machines for the examples *)

(** The client is starting, a restart is requested, the client reaches
    [Running], and the restart calls [client.stop()]. *)
Definition stoppingAfterWait : World :=
  run activated [EvStateChange Starting; EvCommand; EvStateChange Running].

(** The client runs again after a restart, whose invocation still waits for
    a transition. *)
Definition awaitingReady : World :=
  run running [EvCommand; EvStateChange Stopped; EvSettle 1 (Normal tt);
               EvStateChange Starting; EvStateChange Running; EvSettle 2 (Normal tt)].

(** A machine whose file system refuses every check. *)
Definition refusing : Node :=
  mkNode ∅ "/ext/dist" "linux" (λ _, Abrupt (ThrownValue "EACCES"))
    joinSegments (λ p, p) "/" joinSegments_nonempty.

(** * The earlier revision of the extension

    The second text of [client/src/extension.ts] (lines 523-715): the
    client before it had settings, an output channel, a status bar and the
    restart command.  It logs to the console. *)

Module Previous.

(** An argument of [console.log]: a string or an array of strings. *)
Inductive ConsoleArg :=
| Text (s : string)
| Texts (l : list string).

(** A line of the console: was it [console.error], and the arguments. *)
Record ConsoleLine := mkLine {
  isError : bool;
  args : list ConsoleArg
}.

(** The client: the command and the environment of [serverOptions.run]. *)
Record Client := mkClient {
  command : string;
  options_env : gmap string string
}.

(** The module variable [client], the console, and the calls of
    [client.start()] and [client.stop()] so far. *)
Record World := mkWorld {
  client : option Client;
  console : list ConsoleLine;
  starts : nat;
  stops : nat
}.

Definition log (l : list ConsoleArg) (w : World) : World :=
  mkWorld (client w) (console w ++ [mkLine false l]) (starts w) (stops w).

Definition error (l : list ConsoleArg) (w : World) : World :=
  mkWorld (client w) (console w ++ [mkLine true l]) (starts w) (stops w).

(** Lines 578-600: two candidates next to the extension, then the bare
    name. *)
Definition possiblePaths (node : Node) : list string :=
  [ path_join node [dirname node; ".."; ".."; "target"; "debug"; executableName node];
    path_join node [dirname node; ".."; ".."; ".."; "target"; "debug"; executableName node];
    "l-language-server" ].

(** The loop of lines 605-612.  The check is not guarded: what
    [fs.existsSync] throws leaves the loop and [activate]. *)
Fixpoint findServer (node : Node) (paths : list string) (w : World)
  : completion (option string) * World :=
  match paths with
  | [] => (Normal None, w)
  | possiblePath :: rest =>
      let w := log [Text "Checking path:"; Text possiblePath] w in
      match existsSync node possiblePath with
      | Normal true => (Normal (Some possiblePath), log [Text "Found server at:"; Text possiblePath] w)
      | Normal false => findServer node rest w
      | Abrupt t => (Abrupt t, w)
      end
  end.

(** The [else] branch of lines 576-619. *)
Definition searchServer (node : Node) (w : World) : completion string * World :=
  match findServer node (possiblePaths node)
          (log [Text "Searching for server in possible paths:"; Texts (possiblePaths node)] w)
  with
  | (Normal (Some p), w) =>
      if truthy p then (Normal p, w)
      else (Normal "l-language-server",
            log [Text "No local server found, using fallback command:";
                 Text "l-language-server"] w)
  | (Normal None, w) =>
      (Normal "l-language-server",
       log [Text "No local server found, using fallback command:";
            Text "l-language-server"] w)
  | (Abrupt t, w) => (Abrupt t, w)
  end.

(** Lines 572-619: the command chosen, before it is normalised. *)
Definition selectServer (node : Node) (w : World) : completion string * World :=
  match env node !! "SERVER_PATH" with
  | Some p =>
      if truthy p then (Normal p, log [Text "Using server from SERVER_PATH:"; Text p] w)
      else searchServer node w
  | None => searchServer node w
  end.

(** The error handler, lines 657-669; [message_text] is the text the
    template literal gives the message. *)
Definition errorHandler_error (e : Error) (message_text : string) (count : Z) (w : World)
  : ErrorAction * World :=
  (Continue,
   error [Text ("Message: " +:+ message_text)]
     (error [Text ("LSP Error (" +:+ pretty count +:+ "): " +:+ Error_toString e)] w)).

Definition errorHandler_closed (w : World) : CloseAction * World :=
  (Restart, error [Text "LSP connection closed"] w).

(** [activate], lines 562-682.  [client.start()] is called and not
    awaited. *)
Definition activate (node : Node) (w : World) : completion unit * World :=
  match selectServer node w with
  | (Normal selected, w) =>
      let serverCommand := path_normalize node (orElse selected "l-language-server") in
      let w := log [Text "Final server command:"; Text serverCommand] w in
      (Normal tt,
       mkWorld (Some (mkClient serverCommand (<["RUST_LOG" := "debug"]> (env node))))
         (console w) (S (starts w)) (stops w))
  | (Abrupt t, w) => (Abrupt t, w)
  end.

(** [deactivate], lines 692-715, up to the call of [client.stop()]. *)
Definition deactivate (w : World) : Returned * World :=
  match client w with
  | None => (ReturnsUndefined, w)
  | Some _ =>
      let w := log [Text "Stopping L language server..."] w in
      (ReturnsThenable, mkWorld (client w) (console w) (starts w) (S (stops w)))
  end.

(** The two callbacks of [then], lines 703-708. *)
Definition deactivate_settled (r : completion unit) (w : World) : World :=
  match r with
  | Normal _ => log [Text "L language server stopped successfully"] w
  | Abrupt reason => error [Text ("Failed to stop L language server: " +:+ toString reason)] w
  end.

(** The first candidate whose check does not come back false. *)
Definition firstDecisive (node : Node) (paths : list string) : option string :=
  find (λ p, match existsSync node p with
             | Normal false => false
             | _ => true
             end) paths.

End Previous.

(** * The build script, [build.js] *)

Module Build.

(** A message of the bundler: its level, its text and, if any, the place
    it points to. *)
Record BuildMessage := mkMessage {
  level : string;
  message : string;
  position : option (string * Z * Z)
}.

(** What [build] resolves to. *)
Record BuildOutput := mkOutput {
  success : bool;
  logs : list BuildMessage
}.

(** The options handed to [build] that depend on the command line. *)
Record BuildConfig := mkConfig {
  minify : bool;
  (** [Some "inline"], or [None] for [false] *)
  sourcemap : option string
}.

(** The lines the script prints, by the statement that prints them. *)
Inductive Printed :=
| BuildFailed                                     (* console.error, line 22 *)
| ErrorMessage (text : string)                    (* console.error, line 25 *)
| ErrorPosition (file : string) (line column : Z) (* console.error, lines 27-29 *)
| BuildFinished                                   (* console.log, line 37 *)
| BuildStarted                                    (* console.log, line 41 *)
| Uncaught (e : Thrown).                          (* console.error, lines 43 and 48 *)

(** Lines 3-4: [process.argv.includes(flag)]. *)
Definition production (argv : list string) : bool := bool_decide ("--production" ∈ argv).
Definition watch (argv : list string) : bool := bool_decide ("--watch" ∈ argv).

(** Lines 7-19. *)
Definition config (argv : list string) : BuildConfig :=
  mkConfig (production argv) (if negb (production argv) then Some "inline" else None).

(** The loop of lines 23-32. *)
Fixpoint report (messages : list BuildMessage) : list Printed :=
  match messages with
  | [] => []
  | error :: rest =>
      (if bool_decide (level error = "error") then
         ErrorMessage (message error)
         :: match position error with
            | Some (file, line, column) => [ErrorPosition file line column]
            | None => []
            end
       else [])
      ++ report rest
  end.

(** [main], lines 6-38, given what [build] settles to: the lines printed
    and the exit code, [None] when the function returns or throws without
    calling [process.exit]. *)
Definition main (built : completion BuildOutput) : completion unit * list Printed * option Z :=
  match built with
  | Normal result =>
      if negb (success result) then
        (Normal tt, BuildFailed :: report (logs result), Some 1%Z)
      else (Normal tt, [BuildFinished], None)
  | Abrupt e => (Abrupt e, [], None)
  end.

(** The [catch] of lines 42-45 and 47-50 around [main()]. *)
Definition guarded (built : completion BuildOutput) : list Printed * option Z :=
  match main built with
  | (Normal _, printed, code) => (printed, code)
  | (Abrupt e, printed, _) => (printed ++ [Uncaught e], Some 1%Z)
  end.


(** The script, lines 40-51: what it prints and the code it exits with
    ([None]: the process ends by itself, with code 0). *)
Definition script (argv : list string) (built : completion BuildOutput)
  : list Printed * option Z :=
  if watch argv then
    let '(printed, code) := guarded built in (BuildStarted :: printed, code)
  else guarded built.

End Build.

(** ** Reasoning about callbacks *)

Lemma set_outputChannel_same w lines :
  outputChannel w = Some lines → set_outputChannel (Some lines) w = w.
Proof. destruct w; simpl; intros ->; reflexivity. Qed.

Lemma set_outputChannel_twice l1 l2 w :
  set_outputChannel l2 (set_outputChannel l1 w) = set_outputChannel l2 w.
Proof. reflexivity. Qed.

Lemma logging_ret {A} (a : A) : logging (mret a) a.
Proof.
  intros w lines Hw. exists []. rewrite app_nil_r.
  by rewrite set_outputChannel_same.
Qed.

Lemma logging_bind {A B} (m : M A) (k : A → M B) a b :
  logging m a → logging (k a) b → logging (m ≫= k) b.
Proof.
  intros Hm Hk w lines Hw.
  destruct (Hm w lines Hw) as [more1 E1].
  destruct (Hk (set_outputChannel (Some (lines ++ more1)) w) (lines ++ more1) eq_refl)
    as [more2 E2].
  exists (more1 ++ more2). unfold mbind, M_bind. rewrite E1, E2.
  by rewrite set_outputChannel_twice, app_assoc.
Qed.

Lemma logging_appendLine line : logging (appendLine line) tt.
Proof. intros w lines Hw. exists [line]. unfold appendLine. by rewrite Hw. Qed.

Lemma logging_try {A} (m : M A) handler a : logging m a → logging (try_catch m handler) a.
Proof.
  intros Hm w lines Hw. destruct (Hm w lines Hw) as [more E].
  exists more. unfold try_catch. by rewrite E.
Qed.

Lemma logging_lift {A} (a : A) : logging (lift (Normal a)) a.
Proof. apply (logging_ret a). Qed.

Lemma logging_caught {A B} (k : A → M B) handler t b :
  logging (handler t) b → logging (try_catch (lift (Abrupt t) ≫= k) handler) b.
Proof. intros Hh w lines Hw. unfold try_catch, mbind, M_bind, lift. by apply Hh. Qed.

(** ** The executable lookup *)

Section Lookup.
Context (node : Node).

Lemma findServer_logging paths :
  logging (findServer node paths)
    (find (λ p, found (existsSync node p)) paths).
Proof.
  induction paths as [|p rest IH]; simpl.
  - apply logging_ret.
  - eapply logging_bind; [apply logging_appendLine|].
    destruct (existsSync node p) as [[|]|t] eqn:E.
    + simpl. eapply logging_bind.
      * apply logging_try. eapply logging_bind; [apply logging_lift|]. simpl.
        eapply logging_bind; [apply logging_appendLine|]. apply logging_ret.
      * apply logging_ret.
    + simpl. eapply logging_bind.
      * apply logging_try. eapply logging_bind; [apply logging_lift|]. simpl.
        apply logging_ret.
      * apply IH.
    + simpl. eapply logging_bind.
      * apply logging_caught.
        eapply logging_bind; [apply logging_appendLine|]. apply logging_ret.
      * apply IH.
Qed.

Lemma possiblePaths_nonempty p : p ∈ possiblePaths node → p ≠ "".
Proof.
  unfold possiblePaths. rewrite !elem_of_cons, elem_of_nil.
  intros [->|[->|[->|[->|[->|[]]]]]]; try apply path_join_nonempty. discriminate.
Qed.

Lemma searchServer_logging :
  logging (searchServer node)
    (default "l-language-server"
       (find (λ p, found (existsSync node p)) (possiblePaths node))).
Proof.
  unfold searchServer.
  eapply logging_bind; [apply logging_appendLine|].
  eapply logging_bind; [apply findServer_logging|].
  destruct (find _ _) as [p|] eqn:E; simpl.
  - apply find_some in E as [Hin _]. apply list_elem_of_In in Hin.
    apply possiblePaths_nonempty in Hin.
    unfold truthy. rewrite bool_decide_eq_false_2 by done. apply logging_ret.
  - unfold fallbackCommand. eapply logging_bind; [apply logging_appendLine|].
    apply logging_ret.
Qed.

Lemma selectServer_logging cfg :
  logging (selectServer node (default "" (serverPath cfg))) (documentedOrder node cfg).
Proof.
  unfold selectServer, documentedOrder.
  set (explicit := default "" (serverPath cfg)).
  destruct (decide (trim explicit = "")) as [E|E].
  - rewrite (bool_decide_eq_false_2 (trim explicit ≠ "")) by tauto.
    rewrite andb_false_r.
    destruct (env node !! "SERVER_PATH") as [p|].
    + unfold truthy. destruct (decide (p = "")) as [->|Hp].
      * apply searchServer_logging.
      * rewrite (bool_decide_eq_false_2 (p = "")), (bool_decide_eq_true_2 (p ≠ "")) by done.
        cbn [negb]. eapply logging_bind; [apply logging_appendLine|]. apply logging_ret.
    + apply searchServer_logging.
  - rewrite (bool_decide_eq_true_2 (trim explicit ≠ "")) by done.
    assert (truthy explicit = true) as ->.
    { unfold truthy. rewrite bool_decide_eq_false_2; [done|].
      intros Heq. rewrite Heq in E. by apply E. }
    simpl. eapply logging_bind; [apply logging_appendLine|]. apply logging_ret.
Qed.

Lemma documentedOrder_nonempty cfg : documentedOrder node cfg ≠ "".
Proof.
  unfold documentedOrder.
  assert (default "l-language-server"
            (find (λ p, found (existsSync node p)) (possiblePaths node))
          ≠ "") as Hsearch.
  { destruct (find _ _) as [p|] eqn:E; simpl; [|discriminate].
    apply find_some in E as [Hin _]. apply list_elem_of_In in Hin.
    by apply possiblePaths_nonempty in Hin. }
  case_bool_decide as Ht.
  - intros Heq. rewrite Heq in Ht. by apply Ht.
  - destruct (env node !! "SERVER_PATH") as [p|]; [|done].
    case_bool_decide; done.
Qed.

Lemma locateServer_logging cfg :
  logging (locateServer node (default "" (serverPath cfg)))
    (path_normalize node (documentedOrder node cfg)).
Proof.
  unfold locateServer.
  eapply logging_bind; [apply selectServer_logging|].
  assert (orElse (documentedOrder node cfg) "l-language-server" = documentedOrder node cfg)
    as ->.
  { unfold orElse, truthy.
    by rewrite bool_decide_eq_false_2 by apply documentedOrder_nonempty. }
  cbv zeta.
  eapply logging_bind; [apply logging_appendLine|].
  eapply logging_bind; [|apply logging_ret].
  destruct (existsSync node _) as [there|t].
  - apply logging_try. eapply logging_bind; [apply logging_lift|].
    destruct (_ && _); [apply logging_appendLine|apply logging_ret].
  - apply logging_caught. apply logging_appendLine.
Qed.
End Lookup.

(** What [activate] leaves: the channel with its lines, the status bar
    item, the client with the command looked up, the progress notification
    and the pending [client.start()]. *)
Lemma activate_result node w :
  ∃ lines,
    activate node w =
    (Normal tt,
     set_taskCount (S (taskCount w))
       (set_suspended (suspended w ++ [(taskCount w, AwaitActivateStart)])
          (set_calls
             ((calls w ++ [CallWithProgress "Starting L Language Server"])
              ++ [CallStart (path_normalize node (documentedOrder node (configuration w)))])
             (set_client
                (Some (mkClient Stopped
                         (path_normalize node (documentedOrder node (configuration w)))
                         (<["RUST_LOG" := "debug"]> (env node))
                         (default 100%Z (maxNumberOfProblems (configuration w)))))
                (set_statusBarItem
                   (Some (mkStatusBarItem "$(sync~spin) L Language Server"
                            "L Language Server is starting..." None true))
                   (set_outputChannel (Some lines) w)))))).
Proof.
  unfold activate.
  unfold mbind at 1, M_bind at 1, modify at 1.
  unfold mbind at 1, M_bind at 1, modify at 1.
  unfold mbind at 1, M_bind at 1, appendLine at 1.
  cbn [outputChannel set_outputChannel set_statusBarItem].
  unfold mbind at 1, M_bind at 1, get at 1. cbn [configuration].
  unfold mbind at 1, M_bind at 1.
  match goal with |- context [locateServer _ _ ?w1] => set (w1' := w1) end.
  destruct (locateServer_logging node (configuration w) w1' _ eq_refl) as [more E].
  change (configuration w1') with (configuration w).
  rewrite E. eexists. reflexivity.
Qed.

Lemma activate_locates node w :
  ∃ w', activate node w = (Normal tt, w') ∧
        command <$> client w' =
          Some (path_normalize node (documentedOrder node (configuration w))) ∧
        is_Some (outputChannel w').
Proof.
  destruct (activate_result node w) as [lines E]. rewrite E.
  eexists. split; [reflexivity|]. split; [reflexivity|]. cbn. eauto.
Qed.

(** C4. Whatever the configuration, the environment and the file system,
    [activate] does not throw and constructs the client with the command the
    documented order selects, normalised: the explicit server path if it is
    not empty once trimmed, else a non-empty [SERVER_PATH], else the first
    candidate whose existence check succeeds, in the order of the list, else
    the bare name [l-language-server]. *)
Theorem locator_precedence (node : Node) (w : World) :
  ∃ w', activate node w = (Normal tt, w') ∧
        command <$> client w' =
          Some (path_normalize node (documentedOrder node (configuration w))).
Proof.
  destruct (activate_locates node w) as (w' & E & Hc & _). eauto.
Qed.

Example explicit_beats_the_rest :
  command <$> client
    (step (loaded (mkConfiguration (Some " /opt/l/server ") None))
       (EvActivate (linux {["SERVER_PATH" := "/env/server"]}
                      ["/ext/dist/../../target/debug/l-language-server"])))
  = Some " /opt/l/server ".
Proof. vm_compute. reflexivity. Qed.

Example blank_explicit_path_is_skipped :
  command <$> client
    (step (loaded (mkConfiguration (Some "   ") None))
       (EvActivate (linux {["SERVER_PATH" := "/env/server"]}
                      ["/ext/dist/../../target/debug/l-language-server"])))
  = Some "/env/server".
Proof. vm_compute. reflexivity. Qed.

Example first_existing_candidate :
  command <$> client
    (step (loaded (mkConfiguration None None))
       (EvActivate (linux ∅ ["/ext/dist/../../../target/release/l-language-server";
                             "/ext/dist/../../target/release/l-language-server"])))
  = Some "/ext/dist/../../target/release/l-language-server".
Proof. vm_compute. reflexivity. Qed.

Example fallback_name :
  command <$> client (step (loaded (mkConfiguration None None)) (EvActivate (linux ∅ [])))
  = Some "l-language-server".
Proof. vm_compute. reflexivity. Qed.

(** A file system whose checks all throw: the lookup still ends, with the
    bare name. *)
Example throwing_checks_are_survived :
  command <$> client
    (step (loaded (mkConfiguration None None))
       (EvActivate
          (mkNode ∅ "/ext/dist" "linux" (λ _, Abrupt (ThrownValue "EACCES"))
             joinSegments (λ p, p) "/" joinSegments_nonempty)))
  = Some "l-language-server".
Proof. vm_compute. reflexivity. Qed.

(** ** Frames: what the callbacks leave alone *)

Ltac unfold_callbacks :=
  unfold step, settle, configChangeTimer_callback, deactivate, resume,
    restartServer_readyListener, restartServer_startingListener,
    restartServer_afterStarting, restartServer, startNewInstance,
    restartServer_waitCatch, restartServer_catch, activate_catch,
    handleConfigurationChange, errorHandler_closed, errorHandler_error,
    stateChangeListener, updateStatusBar, withStatusBarItem, clearTimeout, setTimeout,
    client_stop, client_start, suspend, theClient, showErrorMessage, call, appendLine,
    exec, lift, modify, get, try_catch, mbind, M_bind, mret, M_ret in *.

Ltac crush :=
  unfold_callbacks;
  repeat (cbn in *; try case_match; simplify_eq);
  try done.

Lemma frame_refl w : frame w w.
Proof.
  split; try done. exists []. rewrite app_nil_r. set_solver.
Qed.

Lemma frame_trans w1 w2 w3 : frame w1 w2 → frame w2 w3 → frame w1 w3.
Proof.
  intros [Hc1 Ho1 Hd1 Hs1 (n1 & E1 & Hs1' & Hr1)] [Hc2 Ho2 Hd2 Hs2 (n2 & E2 & Hs2' & Hr2)].
  split.
  - congruence.
  - auto.
  - auto.
  - intros Hd. rewrite Hs2, Hs1; auto.
  - exists (n1 ++ n2). split; [by rewrite E2, E1, app_assoc|]. split.
    + intros cmd [Hin|Hin]%elem_of_app; [auto|]. rewrite <- Hc1. auto.
    + intros Hd [Hin|Hin]%elem_of_app; [by apply Hr1|]. apply Hr2; auto.
Qed.

Ltac frame_calls :=
  first [ exists []; rewrite app_nil_r; split; [reflexivity|set_solver]
        | rewrite <- ?app_assoc; eexists; split; [reflexivity|];
          split; [intros ?; rewrite ?elem_of_app, ?elem_of_cons, ?elem_of_nil; naive_solver
                 |intros ?; rewrite ?elem_of_app, ?elem_of_cons, ?elem_of_nil; naive_solver] ].

Ltac frame_crush :=
  intros; unfold_callbacks;
  repeat (cbn in *; try case_match; simplify_eq);
  (split; cbn; [done..|frame_calls]).

Lemma restartServer_frame w : frame w (exec restartServer w).
Proof. destruct w. frame_crush. Qed.

Lemma resume_frame a r w : frame w (exec (resume a r) w).
Proof. destruct w, a, r; frame_crush. Qed.

Lemma handleConfigurationChange_frame e w : frame w (exec (handleConfigurationChange e) w).
Proof. destruct w. frame_crush. Qed.

Lemma errorHandler_error_frame error message_json count w :
  frame w (exec (errorHandler_error error message_json count) w).
Proof. destruct w. frame_crush. Qed.

Lemma errorHandler_closed_frame w : frame w (exec errorHandler_closed w).
Proof. destruct w. frame_crush. Qed.

Lemma deactivate_frame w : frame w (exec deactivate w).
Proof. destruct w. frame_crush. Qed.

Lemma stateChangeListener_frame e w : frame w (exec (stateChangeListener e) w).
Proof. destruct w, e as [old []]; frame_crush. Qed.

Lemma startingListener_frame e w : frame w (exec (restartServer_startingListener e) w).
Proof. destruct w, e as [old []]; frame_crush. Qed.

Lemma readyListener_frame e w : frame w (exec (restartServer_readyListener e) w).
Proof. destruct w, e as [old []]; frame_crush. Qed.

Lemma configChangeTimer_callback_frame w : frame w (exec configChangeTimer_callback w).
Proof. destruct w. frame_crush. Qed.

Lemma set_suspended_frame l w : frame w (set_suspended l w).
Proof. destruct w. frame_crush. Qed.

Lemma set_timers_frame l w : frame w (set_timers l w).
Proof. destruct w. frame_crush. Qed.

Lemma set_now_frame n w : frame w (set_now n w).
Proof. destruct w. frame_crush. Qed.

Lemma set_configuration_frame cfg w : frame w (set_configuration cfg w).
Proof. destruct w. frame_crush. Qed.

Lemma set_state_frame c s w :
  client w = Some c →
  frame w (set_client (Some (mkClient s (command c) (options_env c) (maxProblems c))) w).
Proof. destruct w. frame_crush. Qed.

Lemma notify_frame e waiting w : frame w (notify e waiting w).2.
Proof.
  revert w. induction waiting as [|[id a] rest IH]; intros w; simpl.
  - apply frame_refl.
  - destruct a; try apply IH.
    + pose proof (startingListener_frame e w) as Hl. unfold exec in Hl.
      destruct (restartServer_startingListener e w) as [[[|]|t] w'] eqn:E; simpl in Hl.
      * destruct (notify e rest _) as [resolved w''] eqn:E'. simpl.
        eapply frame_trans; [exact Hl|]. eapply frame_trans; [apply set_suspended_frame|].
        pose proof (IH (set_suspended (removeTask id (suspended w')) w')) as H.
        by rewrite E' in H.
      * eapply frame_trans; [exact Hl|apply IH].
      * eapply frame_trans; [exact Hl|apply IH].
    + pose proof (readyListener_frame e w) as Hl. unfold exec in Hl.
      destruct (restartServer_readyListener e w) as [[[|]|t] w'] eqn:E; simpl in Hl.
      * destruct (notify e rest _) as [resolved w''] eqn:E'. simpl.
        eapply frame_trans; [exact Hl|]. eapply frame_trans; [apply set_suspended_frame|].
        pose proof (IH (set_suspended (removeTask id (suspended w')) w')) as H.
        by rewrite E' in H.
      * eapply frame_trans; [exact Hl|apply IH].
      * eapply frame_trans; [exact Hl|apply IH].
Qed.

Lemma resumeAll_frame resolved w : frame w (resumeAll resolved w).
Proof.
  revert w. induction resolved as [|a rest IH]; intros w; simpl.
  - apply frame_refl.
  - eapply frame_trans; [apply resume_frame|apply IH].
Qed.

Lemma stateChange_frame s w : frame w (stateChange s w).
Proof.
  unfold stateChange. destruct (client w) as [c|] eqn:Hc; [|apply frame_refl].
  eapply frame_trans; [by apply (set_state_frame c s)|].
  eapply frame_trans; [apply stateChangeListener_frame|].
  match goal with |- context [notify ?e ?l ?w0] =>
    pose proof (notify_frame e l w0) as Hn; destruct (notify e l w0) as [resolved w3] end.
  eapply frame_trans; [exact Hn|apply resumeAll_frame].
Qed.

Lemma fireDue_frame snapshot w : frame w (fireDue snapshot w).
Proof.
  revert w. induction snapshot as [|[t due] rest IH]; intros w; simpl.
  - apply frame_refl.
  - destruct (_ && _); [|apply IH].
    eapply frame_trans; [apply set_timers_frame|].
    eapply frame_trans; [apply configChangeTimer_callback_frame|apply IH].
Qed.

Lemma elapse_frame ms w : frame w (elapse ms w).
Proof.
  unfold elapse. eapply frame_trans; [apply set_now_frame|apply fireDue_frame].
Qed.

Lemma settle_frame id r w : frame w (settle id r w).
Proof.
  unfold settle. destruct (lookupTask _ _); [|apply frame_refl].
  destruct (settledByClient _); [|apply frame_refl].
  eapply frame_trans; [apply set_suspended_frame|apply resume_frame].
Qed.

Lemma step_frame w ev : afterActivation ev → frame w (step w ev).
Proof.
  destruct ev; simpl; intros Hev; try done.
  - apply restartServer_frame.
  - eapply frame_trans; [apply set_configuration_frame|apply handleConfigurationChange_frame].
  - apply elapse_frame.
  - apply stateChange_frame.
  - apply settle_frame.
  - apply errorHandler_error_frame.
  - apply errorHandler_closed_frame.
  - apply deactivate_frame.
Qed.

Lemma run_frame w evs : Forall afterActivation evs → frame w (run w evs).
Proof.
  revert w. induction evs as [|ev evs IH]; intros w Hevs; simpl.
  - apply frame_refl.
  - inversion Hevs; subst. eapply frame_trans; [by apply step_frame|by apply IH].
Qed.

(** ** Invariants of the reachable worlds *)

(** The client is constructed after the output channel, and neither is
    ever unset. *)
Lemma client_has_channel w : reachable w → is_Some (client w) → is_Some (outputChannel w).
Proof.
  induction 1 as [cfg|w ev Hw IH]; [by intros [? [=]]|].
  destruct (decide (afterActivation ev)) as [Hev|Hev].
  - intros [c Hc]. destruct (step_frame w ev Hev) as [Hcmd Hch _ _ _].
    apply Hch, IH. rewrite Hc in Hcmd. destruct (client w); [eauto|discriminate].
  - destruct ev as [node| | | | | | | |]; try (by destruct Hev).
    intros _. simpl. unfold exec.
    destruct (activate_locates node w) as (w' & E & _ & Hch). by rewrite E.
Qed.

Ltac timers_crush :=
  intros; unfold sameTimers, timersInv in *; unfold_callbacks;
  repeat (cbn in *; try case_match; simplify_eq); try done.

Lemma sameTimers_trans w1 w2 w3 : sameTimers w1 w2 → sameTimers w2 w3 → sameTimers w1 w3.
Proof. unfold sameTimers. intros (?&?&?) (?&?&?). repeat split; congruence. Qed.

Lemma restartServer_sameTimers w : sameTimers w (exec restartServer w).
Proof. destruct w. timers_crush. Qed.

Lemma resume_sameTimers a r w : sameTimers w (exec (resume a r) w).
Proof. destruct w, a, r; timers_crush. Qed.

Lemma listeners_sameTimers e w :
  sameTimers w (exec (stateChangeListener e) w) ∧
  sameTimers w (exec (restartServer_startingListener e) w) ∧
  sameTimers w (exec (restartServer_readyListener e) w).
Proof. destruct w, e as [old []]; timers_crush. Qed.

Lemma errorHandler_sameTimers error message_json count w :
  sameTimers w (exec (errorHandler_error error message_json count) w) ∧
  sameTimers w (exec errorHandler_closed w).
Proof. destruct w. timers_crush. Qed.

Lemma activate_sameTimers node w : sameTimers w (exec (activate node) w).
Proof.
  unfold exec. destruct (activate_result node w) as [lines E]. rewrite E.
  by destruct w.
Qed.

Lemma notify_sameTimers e waiting w : sameTimers w (notify e waiting w).2.
Proof.
  revert w. induction waiting as [|[id a] rest IH]; intros w; simpl; [done|].
  destruct (listeners_sameTimers e w) as (_ & Hs & Hr). unfold exec in Hs, Hr.
  destruct a; try apply IH.
  - destruct (restartServer_startingListener e w) as [[[|]|t] w'] eqn:E; simpl in Hs;
      try (eapply sameTimers_trans; [exact Hs|apply IH]).
    destruct (notify e rest _) as [resolved w''] eqn:E'. simpl.
    pose proof (IH (set_suspended (removeTask id (suspended w')) w')) as H.
    rewrite E' in H. eapply sameTimers_trans; [exact Hs|]. exact H.
  - destruct (restartServer_readyListener e w) as [[[|]|t] w'] eqn:E; simpl in Hr;
      try (eapply sameTimers_trans; [exact Hr|apply IH]).
    destruct (notify e rest _) as [resolved w''] eqn:E'. simpl.
    pose proof (IH (set_suspended (removeTask id (suspended w')) w')) as H.
    rewrite E' in H. eapply sameTimers_trans; [exact Hr|]. exact H.
Qed.

Lemma resumeAll_sameTimers resolved w : sameTimers w (resumeAll resolved w).
Proof.
  revert w. induction resolved as [|a rest IH]; intros w; simpl; [done|].
  eapply sameTimers_trans; [apply resume_sameTimers|apply IH].
Qed.

Lemma stateChange_sameTimers s w : sameTimers w (stateChange s w).
Proof.
  unfold stateChange. destruct (client w) as [c|]; [|done].
  match goal with |- context [notify ?e ?l ?w0] =>
    pose proof (notify_sameTimers e l w0) as Hn; destruct (notify e l w0) as [resolved w3] end.
  eapply sameTimers_trans; [|apply resumeAll_sameTimers].
  eapply sameTimers_trans; [|exact Hn].
  eapply sameTimers_trans; [|apply listeners_sameTimers]. done.
Qed.

Lemma settle_sameTimers id r w : sameTimers w (settle id r w).
Proof.
  unfold settle. destruct (lookupTask _ _); [|done].
  destruct (settledByClient _); [|done].
  eapply sameTimers_trans; [|apply resume_sameTimers]. done.
Qed.

Lemma timersInv_sameTimers w w' : sameTimers w w' → timersInv w → timersInv w'.
Proof. unfold sameTimers, timersInv. intros (-> & -> & _). done. Qed.

Lemma handleConfigurationChange_timersInv e w :
  timersInv w → timersInv (exec (handleConfigurationChange e) w).
Proof.
  destruct w as [c sb oc [t|] d cfg n ts tc cs su k]; unfold timersInv; cbn; intros Hinv;
    unfold_callbacks; cbn; repeat (case_match; simplify_eq; cbn); try done.
  - destruct ts as [|[t' due] [|]]; simplify_eq/=.
    rewrite filter_cons_False by (simpl; tauto). done.
  - destruct ts; simplify_eq/=. done.
Qed.

Lemma deactivate_timersInv w : timersInv w → timersInv (exec deactivate w).
Proof.
  destruct w as [c sb oc [t|] d cfg n ts tc cs su k]; unfold timersInv; cbn; intros Hinv;
    unfold_callbacks; cbn; repeat (case_match; simplify_eq; cbn); try done;
    destruct ts as [|[t' due] [|]]; simplify_eq/=;
    rewrite filter_cons_False by (simpl; tauto); done.
Qed.

Lemma fireDue_timersInv snapshot w : timersInv w → timersInv (fireDue snapshot w).
Proof.
  revert w. induction snapshot as [|[t due] rest IH]; intros w Hinv; simpl; [done|].
  destruct (_ && _) eqn:Hfire; [|by apply IH].
  apply IH. apply andb_prop in Hfire as [_ Hin%bool_decide_eq_true].
  unfold timersInv in Hinv. rewrite Hinv in Hin.
  destruct (configChangeTimer w) as [t0|] eqn:Ht; simpl in Hin; [|by apply elem_of_nil in Hin].
  apply list_elem_of_singleton in Hin as ->.
  pose proof (restartServer_sameTimers (set_timers (filter (λ p, p.1 ≠ t0) (timers w)) w))
    as (Hts & _ & _).
  unfold configChangeTimer_callback, exec, mbind, M_bind, modify, try_catch in *.
  destruct (restartServer _) as [[[]|?] w'] eqn:E; cbn in *; unfold timersInv; cbn;
    rewrite Hts; destruct w as [c sb oc ct d cfg n ts tc cs su k]; cbn in *; subst;
    destruct ts as [|[t' due'] [|]]; simplify_eq/=;
    rewrite filter_cons_False by (simpl; tauto); done.
Qed.

Lemma step_timersInv w ev : timersInv w → timersInv (step w ev).
Proof.
  destruct ev; simpl; intros Hinv.
  - by eapply timersInv_sameTimers; [apply activate_sameTimers|].
  - by eapply timersInv_sameTimers; [apply restartServer_sameTimers|].
  - apply handleConfigurationChange_timersInv. by destruct w.
  - unfold elapse. apply fireDue_timersInv. by destruct w.
  - by eapply timersInv_sameTimers; [apply stateChange_sameTimers|].
  - by eapply timersInv_sameTimers; [apply settle_sameTimers|].
  - by eapply timersInv_sameTimers; [apply errorHandler_sameTimers|].
  - by eapply timersInv_sameTimers; [apply (errorHandler_sameTimers (mkError "" "" None) "" 0)|].
  - by apply deactivate_timersInv.
Qed.

Lemma reachable_timersInv w : reachable w → timersInv w.
Proof. induction 1; [done|by apply step_timersInv]. Qed.

(** ** Runs and reachability *)

Lemma activated_reachable : reachable activated.
Proof. apply (reachable_step _ (EvActivate machine)), reachable_loaded. Qed.

Lemma run_reachable w evs : reachable w → reachable (run w evs).
Proof.
  revert w. induction evs as [|ev evs IH]; intros w Hw; simpl; [done|].
  apply IH. by constructor.
Qed.

Lemma running_reachable : reachable running.
Proof. apply run_reachable, activated_reachable. Qed.

Lemma run_app w evs1 evs2 : run w (evs1 ++ evs2) = run (run w evs1) evs2.
Proof. apply foldl_app. Qed.

Lemma run_snoc w evs ev : run w (evs ++ [ev]) = step (run w evs) ev.
Proof. unfold run. by rewrite foldl_app. Qed.

(** ** The error escalation policy *)

(** C8. In every reachable world in which the client exists (the handler is
    part of its options), the handler answers every communication fault with
    [Continue] and every closure with [Restart]. *)
Theorem faults_continue_closure_restarts (w : World) (error : Error)
    (message_json : string) (count : Z) :
  reachable w → is_Some (client w) →
  (errorHandler_error error message_json count w).1 = Normal Continue ∧
  (errorHandler_closed w).1 = Normal Restart.
Proof.
  intros Hw Hc. destruct (client_has_channel w Hw Hc) as [lines Hl].
  destruct w. crush.
Qed.

Lemma faults_continue_closure_restarts_witness :
  (errorHandler_error anError "{}" 7 activated).1 = Normal Continue ∧
  (errorHandler_closed activated).1 = Normal Restart.
Proof.
  apply (faults_continue_closure_restarts activated anError "{}" 7).
  - apply (reachable_step _ (EvActivate machine)), reachable_loaded.
  - vm_compute. eauto.
Defined.

Lemma fault_alert w error message_json count :
  is_Some (outputChannel w) →
  alertsShown (calls (step w (EvError error message_json count)))
  = (alertsShown (calls w) + (if bool_decide (5 ≤ count)%Z then 1 else 0))%nat.
Proof.
  intros [lines Hl]. destruct w. unfold alertsShown. crush.
  all: rewrite ?filter_app, ?length_app; simpl; lia.
Qed.

(** C3, as the code has it. Where the output channel exists, a run of [n]
    consecutive faults, counted 1 to [n] by the client, shows [n - 4]
    alerts: none before the fifth fault, and one on the fifth and on every
    later fault. *)
Theorem alert_on_every_fault_from_the_fifth (w : World) (error : Error)
    (message_json : string) (n : nat) :
  is_Some (outputChannel w) →
  alertsShown (calls (run w (faultRun error message_json n)))
  = (alertsShown (calls w) + (n - 4))%nat.
Proof.
  intros Hw. induction n as [|n IH].
  - simpl. lia.
  - unfold faultRun in *. rewrite seq_S, fmap_app. cbn [fmap list_fmap].
    rewrite run_snoc, fault_alert.
    + rewrite IH. case_bool_decide; lia.
    + eapply frame_channel; [|exact Hw]. apply run_frame.
      apply Forall_fmap, Forall_forall. done.
Qed.

Lemma alert_on_every_fault_from_the_fifth_witness :
  alertsShown (calls (run activated (faultRun anError "{}" 7)))
  = (alertsShown (calls activated) + (7 - 4))%nat.
Proof.
  apply (alert_on_every_fault_from_the_fifth activated anError "{}" 7).
  vm_compute. eauto.
Defined.

(** C3 fails as stated: after the alert of the fifth fault, the sixth
    consecutive fault shows a second one. *)
Lemma sixth_fault_alerts_again :
  alertsShown (calls (run activated (faultRun anError "{}" 5))) = 1%nat ∧
  alertsShown (calls (run activated (faultRun anError "{}" 6))) = 2%nat.
Proof. vm_compute. done. Qed.

(** ** Configuration changes *)

(** What [handleConfigurationChange] does, by the two checks of the source:
    it arms the timer exactly when the event affects the section and does
    not affect the trace key. *)
Lemma handleConfigurationChange_schedules w e :
  is_Some (outputChannel w) →
  let w' := exec (handleConfigurationChange e) w in
  if affectsConfiguration e "l-language-server"
     && negb (affectsConfiguration e "l-language-server.trace.server")
  then configChangeTimer w' = Some (timeoutCount w) ∧
       (timeoutCount w, (now w + 1000)%nat) ∈ timers w'
  else configChangeTimer w' = configChangeTimer w ∧ timers w' = timers w.
Proof.
  intros [lines Hl]. destruct w. crush; split; try done; set_solver.
Qed.

(** C9, the failing input. One event that changes the trace key and the
    server path: the check for the trace key returns before anything is
    scheduled, although a key that needs a restart changed as well. *)
Theorem trace_change_masks_other_keys :
  let e := changeOf ["l-language-server.trace.server"; "l-language-server.serverPath"] in
  let w := step running (EvConfigurationChange (mkConfiguration (Some "/opt/l/server") None) e) in
  affectsConfiguration e "l-language-server.serverPath" = true ∧
  configChangeTimer w = None ∧ timers w = [] ∧ calls w = calls running.
Proof. vm_compute. done. Qed.

(** The same change without the trace key is scheduled. *)
Example server_path_change_is_scheduled :
  let e := changeOf ["l-language-server.serverPath"] in
  let w := step running (EvConfigurationChange (mkConfiguration (Some "/opt/l/server") None) e) in
  configChangeTimer w = Some 0%nat ∧ timers w = [(0, 1000)]%nat.
Proof. vm_compute. done. Qed.

(** ** Entry points without a client *)



(** ** Deactivation *)

Lemma restartsBegun_app cs new :
  restartsBegun (cs ++ new) = (restartsBegun cs + restartsBegun new)%nat.
Proof. unfold restartsBegun. by rewrite filter_app, length_app. Qed.

Lemma restartsBegun_none new :
  CallWithProgress "Restarting L Language Server" ∉ new → restartsBegun new = 0%nat.
Proof.
  unfold restartsBegun. induction new as [|c new IH]; [done|].
  intros Hnot. rewrite filter_cons. case_decide as Hc.
  - subst c. set_solver.
  - apply IH. set_solver.
Qed.

Lemma restartsBegun_frame cs new :
  CallWithProgress "Restarting L Language Server" ∉ new →
  restartsBegun (cs ++ new) = restartsBegun cs.
Proof. intros Hnot. rewrite restartsBegun_app, (restartsBegun_none new) by done. lia. Qed.




(** Without the call of [deactivate], the same two events do both: the
    timer begins a restart and the transition repaints the status bar. *)
Example without_deactivation :
  let w := run edited [EvElapse 1000; EvStateChange Stopped] in
  restartsBegun (calls w) = 1%nat ∧
  text <$> statusBarItem w = Some "$(x) L Language Server" ∧
  text <$> statusBarItem edited = Some "$(check) L Language Server".
Proof. vm_compute. done. Qed.

(** A restart that was waiting for a starting client when [deactivate] was
    called is released by the next transition and goes on to call
    [client.start()]. *)
Example suspended_restart_goes_on :
  let w := run activated [EvStateChange Starting; EvCommand; EvDeactivate] in
  suspended w = [(0, AwaitActivateStart); (1, AwaitStarting); (2, AwaitDeactivateStop)]%nat ∧
  calls (step w (EvStateChange Stopped)) = calls w ++ [CallStart "l-language-server"].
Proof. vm_compute. done. Qed.

(** ** Restarts *)

(** C1, as the code has it. [restartServer] has two guards and no
    in-progress flag: a request made while the extension is disposing or
    before the client exists is dropped; every other request begins its own
    restart sequence at once, however many sequences are already in
    flight. *)
Theorem every_request_begins_a_restart (w : World) :
  is_Some (outputChannel w) →
  match client w with
  | Some _ =>
      if isDisposing w then
        suspended (step w EvCommand) = suspended w ∧ calls (step w EvCommand) = calls w
      else
        restartsInFlight (step w EvCommand) = S (restartsInFlight w) ∧
        restartsBegun (calls (step w EvCommand)) = S (restartsBegun (calls w))
  | None => suspended (step w EvCommand) = suspended w ∧ calls (step w EvCommand) = calls w
  end.
Proof.
  intros [lines Hl]. destruct w as [c sb oc ct d cfg n ts tc cs su k]. simpl in *. subst.
  destruct c as [[st cmd e mp]|], d; unfold_callbacks; cbn; try done;
    destruct st; cbn; unfold restartsInFlight, restartsBegun; cbn;
    rewrite ?filter_app, ?length_app; cbn.
  all: repeat case_decide; try done; simpl; split; lia.
Qed.

Lemma every_request_begins_a_restart_witness :
  restartsInFlight (step (step running EvCommand) EvCommand)
  = S (restartsInFlight (step running EvCommand)) ∧
  restartsBegun (calls (step (step running EvCommand) EvCommand))
  = S (restartsBegun (calls (step running EvCommand))).
Proof.
  apply (every_request_begins_a_restart (step running EvCommand)).
  vm_compute. eauto.
Defined.

(** C1 fails as stated: two restart commands in a row, the second while the
    first awaits [client.stop()], both run; two sequences are in flight and
    [client.stop()] was called twice. *)
Lemma two_restarts_overlap :
  restartsInFlight (run running [EvCommand; EvCommand]) = 2%nat ∧
  suspended (run running [EvCommand; EvCommand]) = [(1, AwaitStop); (2, AwaitStop)]%nat ∧
  calls (run running [EvCommand; EvCommand])
  = calls running ++ [CallWithProgress "Restarting L Language Server"; CallStop;
                      CallWithProgress "Restarting L Language Server"; CallStop].
Proof. vm_compute. done. Qed.




(** ** The debounce timer *)

Lemma change_arms w cfg e :
  ready w → restartRelevant e →
  ready (step w (EvConfigurationChange cfg e)) ∧
  timers (step w (EvConfigurationChange cfg e)) = [(timeoutCount w, (now w + 1000)%nat)] ∧
  now (step w (EvConfigurationChange cfg e)) = now w ∧
  calls (step w (EvConfigurationChange cfg e))
  = calls w ++ match configChangeTimer w with
               | Some t => [CallClearTimeout t; CallSetTimeout (timeoutCount w) 1000]
               | None => [CallSetTimeout (timeoutCount w) 1000]
               end.
Proof.
  intros ([c Hc] & [lines Hl] & Hd & Hinv) [He1 He2].
  destruct w as [c' sb oc ct d cfg' n ts tc cs su k]. unfold ready, timersInv in *.
  simpl in *. subst. unfold_callbacks. cbn. rewrite He1, He2. cbn.
  destruct ct as [t|]; cbn.
  - destruct ts as [|[t' due] [|]]; simplify_eq/=.
    rewrite filter_cons_False by (simpl; tauto). cbn.
    rewrite <- app_assoc. repeat split; eauto.
  - destruct ts; simplify_eq/=. repeat split; eauto.
Qed.

Lemma elapse_short w t due gap :
  timers w = [(t, due)] → (now w + gap < due)%nat →
  step w (EvElapse gap) = set_now (now w + gap)%nat w.
Proof.
  intros Ht Hlt. simpl. unfold elapse. destruct w; simpl in *; subst. simpl.
  rewrite bool_decide_eq_false_2 by lia. done.
Qed.

Lemma elapse_fires w t due quiet :
  ready w → timers w = [(t, due)] → (due ≤ now w + quiet)%nat →
  calls (step w (EvElapse quiet))
  = calls w ++ CallWithProgress "Restarting L Language Server"
               :: match state <$> client w with
                  | Some Running => [CallStop]
                  | Some Stopped => CallStart <$> option_list (command <$> client w)
                  | _ => []
                  end ∧
  timers (step w (EvElapse quiet)) = [] ∧
  configChangeTimer (step w (EvElapse quiet)) = None.
Proof.
  intros ([c Hc] & [lines Hl] & Hd & Hinv) Ht Hle.
  destruct w as [c' sb oc ct d cfg' n ts tc cs su k]. unfold timersInv in *.
  simpl in *. subst. unfold elapse. simpl.
  rewrite bool_decide_eq_true_2 by lia.
  rewrite bool_decide_eq_true_2 by set_solver. simpl.
  rewrite filter_cons_False by (simpl; tauto). rewrite filter_nil.
  destruct c as [[] cmd e mp]; unfold_callbacks; cbn; rewrite <- ?app_assoc; done.
Qed.

Lemma restartsBegun_fired cs tail :
  CallWithProgress "Restarting L Language Server" ∉ tail →
  restartsBegun (cs ++ CallWithProgress "Restarting L Language Server" :: tail)
  = S (restartsBegun cs).
Proof.
  intros Hnot. rewrite restartsBegun_app.
  change (CallWithProgress "Restarting L Language Server" :: tail)
    with ([CallWithProgress "Restarting L Language Server"] ++ tail).
  rewrite restartsBegun_app, (restartsBegun_none tail) by done.
  unfold restartsBegun. rewrite filter_cons_True by done. simpl. lia.
Qed.

Lemma ready_set_now n w : ready w → ready (set_now n w).
Proof. by destruct w. Qed.

Lemma burst_coalesces rest quiet w t :
  ready w → timers w = [(t, (now w + 1000)%nat)] →
  Forall (λ x, (x.1.1 < 1000)%nat ∧ restartRelevant x.2) rest →
  (1000 ≤ quiet)%nat →
  restartsBegun (calls (run w (burst rest))) = restartsBegun (calls w) ∧
  (∃ t', timers (run w (burst rest)) = [(t', (now (run w (burst rest)) + 1000)%nat)]) ∧
  restartsBegun (calls (step (run w (burst rest)) (EvElapse quiet)))
  = S (restartsBegun (calls w)) ∧
  timers (step (run w (burst rest)) (EvElapse quiet)) = [].
Proof.
  intros Hw Ht Hrest Hq. revert w t Hw Ht.
  induction Hrest as [|[[gap cfg] e] rest [Hgap He] Hrest IH]; intros w t Hw Ht.
  - simpl run. split; [done|]. split; [eauto|].
    destruct (elapse_fires w t _ quiet Hw Ht ltac:(lia)) as (Hc & Hts & _).
    split; [|done]. rewrite Hc. apply restartsBegun_fired.
    destruct (state <$> client w) as [[]|]; destruct (command <$> client w); set_solver.
  - simpl in Hgap. cbn [burst run foldl].
    rewrite (elapse_short w t (now w + 1000)%nat gap Ht) by lia.
    pose proof (ready_set_now (now w + gap)%nat w Hw) as Hw1.
    destruct (change_arms _ cfg e Hw1 He) as (Hw2 & Ht2 & Hn2 & Hc2).
    specialize (IH _ (timeoutCount (set_now (now w + gap)%nat w)) Hw2).
    rewrite <- Hn2 in Ht2. specialize (IH Ht2).
    assert (restartsBegun
              (calls (step (set_now (now w + gap)%nat w) (EvConfigurationChange cfg e)))
            = restartsBegun (calls w)) as Hsame.
    { rewrite Hc2, restartsBegun_frame; [done|].
      destruct (configChangeTimer _); set_solver. }
    fold (run (step (set_now (now w + gap)%nat w) (EvConfigurationChange cfg e)) (burst rest)).
    rewrite <- Hsame. exact IH.
Qed.

(** C5. From any reachable world: at most one timeout is pending, whatever
    happens. And where the client exists and the extension is not disposing,
    a burst of restart-relevant configuration changes, each less than a
    second after the one before, begins no restart while it lasts and leaves
    exactly one timeout pending, due one second after the last change; once
    a second has passed, exactly one restart has begun and no timeout is
    left. *)
Theorem debounce_coalesces (w : World) (cfg : Configuration)
    (e : ConfigurationChangeEvent)
    (rest : list (nat * Configuration * ConfigurationChangeEvent)) (quiet : nat) :
  reachable w → is_Some (client w) → isDisposing w = false →
  restartRelevant e →
  Forall (λ x, (x.1.1 < 1000)%nat ∧ restartRelevant x.2) rest →
  (1000 ≤ quiet)%nat →
  (∀ evs, (length (timers (run w evs)) ≤ 1)%nat) ∧
  restartsBegun (calls (run w (EvConfigurationChange cfg e :: burst rest)))
  = restartsBegun (calls w) ∧
  (∃ t, timers (run w (EvConfigurationChange cfg e :: burst rest))
        = [(t, (now (run w (EvConfigurationChange cfg e :: burst rest)) + 1000)%nat)]) ∧
  restartsBegun
    (calls (step (run w (EvConfigurationChange cfg e :: burst rest)) (EvElapse quiet)))
  = S (restartsBegun (calls w)) ∧
  timers (step (run w (EvConfigurationChange cfg e :: burst rest)) (EvElapse quiet)) = [].
Proof.
  intros Hw Hc Hd He Hrest Hq. split.
  - intros evs. pose proof (reachable_timersInv _ (run_reachable w evs Hw)) as Hinv.
    unfold timersInv in Hinv. rewrite <- (length_fmap fst), Hinv.
    destruct (configChangeTimer _); simpl; lia.
  - assert (ready w) as Hready.
    { repeat split; auto using client_has_channel, reachable_timersInv. }
    destruct (change_arms w cfg e Hready He) as (Hw1 & Ht1 & Hn1 & Hc1).
    rewrite <- Hn1 in Ht1.
    destruct (burst_coalesces rest quiet _ _ Hw1 Ht1 Hrest Hq) as (H1 & H2 & H3 & H4).
    assert (restartsBegun (calls (step w (EvConfigurationChange cfg e)))
            = restartsBegun (calls w)) as Hsame.
    { rewrite Hc1, restartsBegun_frame; [done|].
      destruct (configChangeTimer _); set_solver. }
    cbn [run foldl].
    fold (run (step w (EvConfigurationChange cfg e)) (burst rest)).
    rewrite <- Hsame. done.
Qed.

(** Three edits, 200 ms and 900 ms apart, then more than a second of
    quiet. *)
Lemma debounce_coalesces_witness :
  (∀ evs, (length (timers (run running evs)) ≤ 1)%nat) ∧
  restartsBegun
    (calls (run running
              (EvConfigurationChange settings (changeOf ["l-language-server.serverPath"])
               :: burst [(200%nat, settings, changeOf ["l-language-server.maxNumberOfProblems"]);
                         (900%nat, settings, changeOf ["l-language-server.serverPath"])])))
  = restartsBegun (calls running) ∧
  (∃ t, timers (run running
              (EvConfigurationChange settings (changeOf ["l-language-server.serverPath"])
               :: burst [(200%nat, settings, changeOf ["l-language-server.maxNumberOfProblems"]);
                         (900%nat, settings, changeOf ["l-language-server.serverPath"])]))
        = [(t, (now (run running
              (EvConfigurationChange settings (changeOf ["l-language-server.serverPath"])
               :: burst [(200%nat, settings, changeOf ["l-language-server.maxNumberOfProblems"]);
                         (900%nat, settings, changeOf ["l-language-server.serverPath"])])) + 1000)%nat)]) ∧
  restartsBegun
    (calls (step (run running
              (EvConfigurationChange settings (changeOf ["l-language-server.serverPath"])
               :: burst [(200%nat, settings, changeOf ["l-language-server.maxNumberOfProblems"]);
                         (900%nat, settings, changeOf ["l-language-server.serverPath"])]))
              (EvElapse 1500)))
  = S (restartsBegun (calls running)) ∧
  timers (step (run running
              (EvConfigurationChange settings (changeOf ["l-language-server.serverPath"])
               :: burst [(200%nat, settings, changeOf ["l-language-server.maxNumberOfProblems"]);
                         (900%nat, settings, changeOf ["l-language-server.serverPath"])]))
              (EvElapse 1500)) = [].
Proof.
  apply (debounce_coalesces running settings (changeOf ["l-language-server.serverPath"])
           [(200%nat, settings, changeOf ["l-language-server.maxNumberOfProblems"]);
            (900%nat, settings, changeOf ["l-language-server.serverPath"])] 1500).
  - apply (run_reachable activated), (reachable_step _ (EvActivate machine)), reachable_loaded.
  - vm_compute. eauto.
  - reflexivity.
  - split; reflexivity.
  - repeat constructor; simpl; lia.
  - lia.
Defined.

(** ** Events of an earlier process instance *)

(** C7, as the code has it. The events carry the two states and nothing
    else, and the subscriber looks at the new state only: while the
    extension is not disposing, every event delivered repaints the status bar
    item for its new state, whatever generation it stems from. *)
Theorem status_bar_follows_every_event (w : World) (g : nat) (e : StateChangeEvent)
    (item : StatusBarItem) :
  isDisposing w = false → statusBarItem w = Some item →
  statusBarItem (exec (deliver g e) w) = Some (statusFor (newState e) item).
Proof.
  intros Hd Hs. destruct w. simpl in *. subst. reflexivity.
Qed.

Lemma status_bar_follows_every_event_witness :
  statusBarItem (exec (deliver 1 (mkStateChange Running Stopped)) restarted)
  = Some (statusFor Stopped
            (mkStatusBarItem "$(check) L Language Server" "L Language Server is running"
               None true)).
Proof.
  apply (status_bar_follows_every_event restarted 1 (mkStateChange Running Stopped));
    reflexivity.
Defined.

(** C7 fails as stated: in generation 2, with the server running, the late
    [Stopped] event of generation 1 turns the status bar to stopped. *)
Lemma stale_event_repaints_status_bar :
  generation restarted = 2%nat ∧
  state <$> client restarted = Some Running ∧
  text <$> statusBarItem restarted = Some "$(check) L Language Server" ∧
  text <$> statusBarItem (exec (deliver 1 (mkStateChange Running Stopped)) restarted)
  = Some "$(x) L Language Server".
Proof. vm_compute. done. Qed.

(** ** Ids of suspended invocations *)

Ltac suspends_crush :=
  intros; unfold suspendsAtMostOnce; unfold_callbacks;
  repeat (cbn in *; try case_match; simplify_eq); eauto.

Lemma restartServer_suspends w : suspendsAtMostOnce w (exec restartServer w).
Proof. destruct w. suspends_crush. Qed.

Lemma resume_suspends a r w : suspendsAtMostOnce w (exec (resume a r) w).
Proof. destruct w, a, r; suspends_crush. Qed.

Lemma callbacks_keep_suspended e error message_json count ce w :
  suspended (exec (stateChangeListener e) w) = suspended w ∧
  taskCount (exec (stateChangeListener e) w) = taskCount w ∧
  suspended (exec (errorHandler_error error message_json count) w) = suspended w ∧
  taskCount (exec (errorHandler_error error message_json count) w) = taskCount w ∧
  suspended (exec errorHandler_closed w) = suspended w ∧
  taskCount (exec errorHandler_closed w) = taskCount w ∧
  suspended (exec (handleConfigurationChange ce) w) = suspended w ∧
  taskCount (exec (handleConfigurationChange ce) w) = taskCount w.
Proof. destruct w, e as [old []]; crush. Qed.

Lemma listeners_keep_suspended e w :
  suspended (restartServer_startingListener e w).2 = suspended w ∧
  taskCount (restartServer_startingListener e w).2 = taskCount w ∧
  suspended (restartServer_readyListener e w).2 = suspended w ∧
  taskCount (restartServer_readyListener e w).2 = taskCount w.
Proof. destruct w, e as [old []]; crush. Qed.

Lemma deactivate_suspends w : suspendsAtMostOnce w (exec deactivate w).
Proof. destruct w. suspends_crush. Qed.

Lemma tasksFresh_grows w w' : suspendsAtMostOnce w w' → tasksFresh w → tasksFresh w'.
Proof.
  unfold tasksFresh. intros [[-> ->]|(a & -> & ->)] Hf; [done|].
  apply Forall_app. split.
  - eapply Forall_impl; [exact Hf|]. simpl. lia.
  - apply Forall_singleton. simpl. lia.
Qed.

Lemma tasksFresh_remove id w :
  tasksFresh w → tasksFresh (set_suspended (removeTask id (suspended w)) w).
Proof.
  unfold tasksFresh. destruct w; simpl. intros Hf.
  apply Forall_forall. intros p [_ Hin]%list_elem_of_filter.
  by eapply Forall_forall in Hf.
Qed.

Lemma tasksFresh_same w w' :
  suspended w' = suspended w → taskCount w' = taskCount w → tasksFresh w → tasksFresh w'.
Proof. unfold tasksFresh. by intros -> ->. Qed.

Lemma notify_tasksFresh e waiting w : tasksFresh w → tasksFresh (notify e waiting w).2.
Proof.
  revert w. induction waiting as [|[id a] rest IH]; intros w Hf; simpl; [done|].
  destruct (listeners_keep_suspended e w) as (Hs1 & Hs2 & Hr1 & Hr2).
  destruct a; try by apply IH.
  - destruct (restartServer_startingListener e w) as [[[|]|t] w'] eqn:E; simpl in *;
      try (apply IH; by eapply tasksFresh_same).
    destruct (notify e rest _) as [resolved w''] eqn:E'. simpl.
    pose proof (IH (set_suspended (removeTask id (suspended w')) w')) as H.
    rewrite E' in H. apply H, tasksFresh_remove. by eapply tasksFresh_same.
  - destruct (restartServer_readyListener e w) as [[[|]|t] w'] eqn:E; simpl in *;
      try (apply IH; by eapply tasksFresh_same).
    destruct (notify e rest _) as [resolved w''] eqn:E'. simpl.
    pose proof (IH (set_suspended (removeTask id (suspended w')) w')) as H.
    rewrite E' in H. apply H, tasksFresh_remove. by eapply tasksFresh_same.
Qed.

Lemma resumeAll_tasksFresh resolved w : tasksFresh w → tasksFresh (resumeAll resolved w).
Proof.
  revert w. induction resolved as [|a rest IH]; intros w Hf; simpl; [done|].
  apply IH. eapply tasksFresh_grows; [apply resume_suspends|done].
Qed.

Lemma fireDue_tasksFresh snapshot w : tasksFresh w → tasksFresh (fireDue snapshot w).
Proof.
  revert w. induction snapshot as [|[t due] rest IH]; intros w Hf; simpl; [done|].
  destruct (_ && _); [|by apply IH]. apply IH.
  set (w1 := set_timers _ w).
  assert (tasksFresh w1) as Hf1 by (by destruct w).
  pose proof (restartServer_suspends w1) as Hs.
  apply (tasksFresh_grows _ _ Hs) in Hf1.
  unfold configChangeTimer_callback, exec, mbind, M_bind, modify, try_catch in *.
  destruct (restartServer w1) as [[[]|?] w'']; simpl in *; by destruct w''.
Qed.

Lemma step_tasksFresh w ev : tasksFresh w → tasksFresh (step w ev).
Proof.
  intros Hf. destruct ev as [node| |cfg ce|ms|s|id r|error message_json count| |]; simpl.
  - unfold exec. destruct (activate_result node w) as [lines E]. rewrite E.
    unfold tasksFresh in *. destruct w; simpl in *.
    apply Forall_app. split.
    + eapply Forall_impl; [exact Hf|]. simpl. lia.
    + apply Forall_singleton. simpl. lia.
  - eapply tasksFresh_grows; [apply restartServer_suspends|done].
  - destruct (callbacks_keep_suspended (mkStateChange Stopped Stopped) (mkError "" "" None)
                "" 0 ce (set_configuration cfg w)) as (_ & _ & _ & _ & _ & _ & Hs & Hc).
    eapply tasksFresh_same; [exact Hs|exact Hc|by destruct w].
  - unfold elapse. apply fireDue_tasksFresh. by destruct w.
  - unfold stateChange. destruct (client w) as [c|]; [|done].
    match goal with |- context [notify ?e ?l ?w0] =>
      pose proof (notify_tasksFresh e l w0) as Hn; destruct (notify e l w0) as [resolved w3] end.
    apply resumeAll_tasksFresh, Hn.
    match goal with |- context [exec (stateChangeListener ?e) ?w0] =>
      destruct (callbacks_keep_suspended e (mkError "" "" None) "" 0
                  (mkConfigurationChange (λ _, false)) w0) as (Hs & Hc & _) end.
    eapply tasksFresh_same; [exact Hs|exact Hc|by destruct w].
  - unfold settle. destruct (lookupTask _ _); [|done].
    destruct (settledByClient _); [|done].
    eapply tasksFresh_grows; [apply resume_suspends|by apply tasksFresh_remove].
  - destruct (callbacks_keep_suspended (mkStateChange Stopped Stopped) error message_json
                count (mkConfigurationChange (λ _, false)) w) as (_ & _ & Hs & Hc & _).
    by eapply tasksFresh_same.
  - destruct (callbacks_keep_suspended (mkStateChange Stopped Stopped) (mkError "" "" None)
                "" 0 (mkConfigurationChange (λ _, false)) w) as (_ & _ & _ & _ & Hs & Hc & _).
    by eapply tasksFresh_same.
  - eapply tasksFresh_grows; [apply deactivate_suspends|done].
Qed.

Lemma reachable_tasksFresh w : reachable w → tasksFresh w.
Proof. induction 1; [by constructor|by apply step_tasksFresh]. Qed.

(** The invocation suspended last, under a fresh id, is the one a settled
    promise with that id resumes. *)
Lemma lookupTask_fresh su k a :
  Forall (λ p, (p.1 < k)%nat) su →
  lookupTask k (su ++ [(k, a)]) = Some a ∧ removeTask k (su ++ [(k, a)]) = su.
Proof.
  intros Hf. unfold lookupTask, removeTask. induction Hf as [|[id b] su Hid Hf [IH1 IH2]]; simpl.
  - rewrite bool_decide_eq_true_2 by done. split; [done|].
    rewrite filter_cons_False by (simpl; tauto). done.
  - simpl in Hid. rewrite bool_decide_eq_false_2 by lia. split; [done|].
    rewrite filter_cons_True by (simpl; lia). by rewrite IH2.
Qed.

(** ** The disposing flag *)

(** X1. [isDisposing] is only ever assigned [true]: once set it stays set
    under every event, a new call of [activate] included. *)
Theorem disposing_is_permanent (w : World) (evs : list Event) :
  isDisposing w = true → isDisposing (run w evs) = true.
Proof.
  revert w. induction evs as [|ev evs IH]; intros w Hd; simpl; [done|].
  apply IH. destruct (decide (afterActivation ev)) as [Hev|Hev].
  - by apply (frame_disposing _ _ (step_frame w ev Hev)).
  - destruct ev as [node| | | | | | | |]; try (by destruct Hev).
    simpl. unfold exec. destruct (activate_result node w) as [lines E]. rewrite E.
    by destruct w.
Qed.

Lemma disposing_is_permanent_witness :
  isDisposing (run (step running EvDeactivate)
                 [EvActivate machine; EvStateChange Running; EvCommand]) = true.
Proof.
  apply (disposing_is_permanent (step running EvDeactivate)
           [EvActivate machine; EvStateChange Running; EvCommand]).
  reflexivity.
Defined.

(** ** The client [activate] constructs *)

(** X2. The client starts out [Stopped]; the server inherits the
    environment of the extension host with [RUST_LOG] forced to [debug],
    whatever value it had; the problem limit handed to the server is the
    configured one, 100 when none is configured. *)
Theorem activate_server_options (node : Node) (w : World) :
  ∃ w' c, activate node w = (Normal tt, w') ∧ client w' = Some c ∧
          state c = Stopped ∧
          options_env c !! "RUST_LOG" = Some "debug" ∧
          (∀ k, k ≠ "RUST_LOG" → options_env c !! k = env node !! k) ∧
          maxProblems c = default 100%Z (maxNumberOfProblems (configuration w)).
Proof.
  destruct (activate_result node w) as [lines E]. rewrite E.
  eexists _, _. split; [reflexivity|]. split; [reflexivity|]. cbn.
  split; [done|]. split; [apply lookup_insert_eq|]. split; [|done].
  intros k Hk. by apply lookup_insert_ne.
Qed.

(** ** [deactivate] with a client *)

Lemma settle_fresh w su k a r :
  suspended w = su ++ [(k, a)] → Forall (λ p, (p.1 < k)%nat) su →
  settledByClient a = true →
  settle k r w = exec (resume a r) (set_suspended su w).
Proof.
  intros Hsu Hf Ha. unfold settle. rewrite Hsu.
  destruct (lookupTask_fresh su k a Hf) as [-> ->]. by rewrite Ha.
Qed.

(** X3. In a reachable world with a client, [deactivate] returns a promise
    after one [client.stop()] (and a [clearTimeout] of the timeout held, if
    any), sets the disposing flag and holds no timeout.  However the promise
    of [client.stop()] settles, the outcome is a line in the output channel:
    no alert, no further call, and nothing stays suspended. *)
Theorem deactivate_never_fails (w : World) (c : LanguageClient) (r : completion unit) :
  reachable w → client w = Some c →
  ∃ w', deactivate w = (Normal ReturnsThenable, w') ∧
        isDisposing w' = true ∧ configChangeTimer w' = None ∧
        calls w' = calls w ++ (CallClearTimeout <$> option_list (configChangeTimer w))
                           ++ [CallStop] ∧
        calls (step w' (EvSettle (taskCount w) r)) = calls w' ∧
        suspended (step w' (EvSettle (taskCount w) r)) = suspended w ∧
        ∃ lines, outputChannel w' = Some lines ∧
                 outputChannel (step w' (EvSettle (taskCount w) r))
                 = Some (lines ++ [match r with
                                   | Normal _ => "[INFO] L language server stopped successfully"
                                   | Abrupt reason =>
                                       "[ERROR] Failed to stop L language server: "
                                       +:+ toString reason
                                   end]).
Proof.
  intros Hw Hc.
  destruct (client_has_channel w Hw) as [lines Hl]; [by rewrite Hc|].
  pose proof (reachable_tasksFresh w Hw) as Hf. unfold tasksFresh in Hf.
  destruct w as [c' sb oc ct d cfg n ts tc cs su k]. simpl in *. subst.
  assert (∃ w', deactivate (mkWorld (Some c) sb (Some lines) ct d cfg n ts tc cs su k)
                = (Normal ReturnsThenable, w') ∧
                isDisposing w' = true ∧ configChangeTimer w' = None ∧
                calls w' = cs ++ (CallClearTimeout <$> option_list ct) ++ [CallStop] ∧
                suspended w' = su ++ [(k, AwaitDeactivateStop)] ∧
                is_Some (outputChannel w')) as (w' & E & Hd & Ht & Hcs & Hsu & [lines' Hl']).
  { destruct ct as [t|]; unfold_callbacks; cbn; eexists; (split; [reflexivity|]); cbn;
      rewrite <- ?app_assoc; eauto 10. }
  exists w'. rewrite E. do 4 (split; [done|]).
  rewrite (settle_fresh w' su k AwaitDeactivateStop r Hsu Hf eq_refl).
  destruct w'; simpl in *; subst. destruct r; cbn; eauto 10.
Qed.

Lemma deactivate_never_fails_witness :
  ∃ w', deactivate edited = (Normal ReturnsThenable, w') ∧
        isDisposing w' = true ∧ configChangeTimer w' = None ∧
        calls w' = calls edited ++ (CallClearTimeout <$> option_list (configChangeTimer edited))
                                ++ [CallStop] ∧
        calls (step w' (EvSettle (taskCount edited) (Abrupt (ThrownValue "timeout")))) = calls w' ∧
        suspended (step w' (EvSettle (taskCount edited) (Abrupt (ThrownValue "timeout"))))
        = suspended edited ∧
        ∃ lines,
          outputChannel w' = Some lines ∧
          outputChannel (step w' (EvSettle (taskCount edited) (Abrupt (ThrownValue "timeout"))))
          = Some (lines ++ ["[ERROR] Failed to stop L language server: "
                            +:+ toString (ThrownValue "timeout")]).
Proof.
  apply (deactivate_never_fails edited
           (mkClient Running "l-language-server" (<["RUST_LOG" := "debug"]> ∅) 100)
           (Abrupt (ThrownValue "timeout"))).
  - apply (reachable_step _ (EvConfigurationChange _ _)), (run_reachable activated),
      (reachable_step _ (EvActivate machine)), reachable_loaded.
  - vm_compute. reflexivity.
Defined.

(** ** The steps of a restart *)

(** X4. What a restart request does, by the state of the client, in a
    reachable world with a client that is not disposing.  [Running]: it
    calls [client.stop()] and nothing else; [client.start()] follows only
    when that promise has resolved.  [Stopped]: it calls [client.start()] at
    once.  [Starting]: it calls neither and waits for a transition. *)
Theorem restart_by_client_state (w : World) (c : LanguageClient) :
  reachable w → client w = Some c → isDisposing w = false →
  match state c with
  | Running =>
      calls (step w EvCommand)
      = calls w ++ [CallWithProgress "Restarting L Language Server"; CallStop] ∧
      calls (step (step w EvCommand) (EvSettle (taskCount w) (Normal tt)))
      = calls w ++ [CallWithProgress "Restarting L Language Server"; CallStop;
                    CallStart (command c)]
  | Stopped =>
      calls (step w EvCommand)
      = calls w ++ [CallWithProgress "Restarting L Language Server"; CallStart (command c)]
  | Starting =>
      calls (step w EvCommand) = calls w ++ [CallWithProgress "Restarting L Language Server"] ∧
      suspended (step w EvCommand) = suspended w ++ [(taskCount w, AwaitStarting)]
  end.
Proof.
  intros Hw Hc Hd.
  destruct (client_has_channel w Hw) as [lines Hl]; [by rewrite Hc|].
  pose proof (reachable_tasksFresh w Hw) as Hf. unfold tasksFresh in Hf.
  destruct w as [c' sb oc ct d cfg n ts tc cs su k]. simpl in *. subst.
  destruct c as [[] cmd e mp]; cbn [state command].
  - unfold_callbacks. cbn. by rewrite <- app_assoc.
  - unfold_callbacks. cbn. done.
  - assert (∃ w1, exec restartServer
                    (mkWorld (Some (mkClient Running cmd e mp)) sb (Some lines) ct false cfg n
                       ts tc cs su k) = w1 ∧
                  calls w1 = cs ++ [CallWithProgress "Restarting L Language Server"; CallStop] ∧
                  suspended w1 = su ++ [(k, AwaitStop)] ∧
                  client w1 = Some (mkClient Running cmd e mp) ∧
                  is_Some (outputChannel w1)) as (w1 & E & Hcs & Hsu & Hc1 & [lines1 Hl1]).
    { eexists. split; [reflexivity|]. unfold_callbacks. cbn. rewrite <- app_assoc. eauto. }
    rewrite E. split; [done|].
    rewrite (settle_fresh w1 su k AwaitStop (Normal tt) Hsu Hf eq_refl).
    destruct w1; simpl in *; subst. unfold_callbacks. cbn. by rewrite <- !app_assoc.
Qed.

Lemma restart_by_client_state_witness :
  calls (step running EvCommand)
  = calls running ++ [CallWithProgress "Restarting L Language Server"; CallStop] ∧
  calls (step (step running EvCommand) (EvSettle (taskCount running) (Normal tt)))
  = calls running ++ [CallWithProgress "Restarting L Language Server"; CallStop;
                      CallStart "l-language-server"].
Proof.
  apply (restart_by_client_state running
           (mkClient Running "l-language-server" (<["RUST_LOG" := "debug"]> ∅) 100)).
  - apply (run_reachable activated), (reachable_step _ (EvActivate machine)), reachable_loaded.
  - vm_compute. reflexivity.
  - reflexivity.
Defined.

Lemma lookupTask_settle w id a r :
  lookupTask id (suspended w) = Some a → settledByClient a = true →
  settle id r w = exec (resume a r) (set_suspended (removeTask id (suspended w)) w).
Proof. intros Hl Ha. unfold settle. by rewrite Hl, Ha. Qed.

(** X5. A restart that awaits the [client.stop()] of a running client, or
    its [client.start()], ends when that promise rejects: one alert naming
    the reason is shown, no further call is made, and the sequence no longer
    waits for anything. *)
Theorem rejected_promise_ends_restart (w : World) (id : nat) (a : Await) (reason : Thrown) :
  is_Some (outputChannel w) →
  lookupTask id (suspended w) = Some a → a = AwaitStop ∨ a = AwaitStart →
  calls (step w (EvSettle id (Abrupt reason)))
  = calls w ++ [CallShowErrorMessage
                  ("Failed to restart L Language Server: " +:+ toString reason)] ∧
  suspended (step w (EvSettle id (Abrupt reason))) = removeTask id (suspended w).
Proof.
  intros [lines Hl] Hlook Ha. simpl.
  rewrite (lookupTask_settle w id a _ Hlook) by (by destruct Ha as [->| ->]).
  destruct w as [c' sb oc ct d cfg n ts tc cs su k]. simpl in *. subst.
  destruct Ha as [->| ->], reason; unfold_callbacks; cbn; done.
Qed.

Lemma rejected_promise_ends_restart_witness :
  calls (step (step running EvCommand) (EvSettle 1 (Abrupt (ThrownValue "no"))))
  = calls (step running EvCommand)
    ++ [CallShowErrorMessage ("Failed to restart L Language Server: "
                              +:+ toString (ThrownValue "no"))] ∧
  suspended (step (step running EvCommand) (EvSettle 1 (Abrupt (ThrownValue "no"))))
  = removeTask 1 (suspended (step running EvCommand)).
Proof.
  apply (rejected_promise_ends_restart (step running EvCommand) 1 AwaitStop (ThrownValue "no")).
  - vm_compute. eauto.
  - reflexivity.
  - left. reflexivity.
Defined.

(** X6. The [client.stop()] issued after waiting for a starting client is
    treated differently: when it rejects, a warning is logged, no alert is
    shown, and the restart goes on to [client.start()]. *)
Theorem rejected_stop_after_waiting_is_tolerated (w : World) (c : LanguageClient)
    (lines : list string) (id : nat) (reason : Thrown) :
  outputChannel w = Some lines → client w = Some c →
  lookupTask id (suspended w) = Some AwaitStopAfterStarting →
  calls (step w (EvSettle id (Abrupt reason))) = calls w ++ [CallStart (command c)] ∧
  suspended (step w (EvSettle id (Abrupt reason)))
  = removeTask id (suspended w) ++ [(taskCount w, AwaitStart)] ∧
  outputChannel (step w (EvSettle id (Abrupt reason)))
  = Some (lines ++ ["[WARN] Server failed to start during wait: " +:+ toString reason;
                    "[INFO] Starting new server instance..."]).
Proof.
  intros Hl Hc Hlook. simpl.
  rewrite (lookupTask_settle w id _ _ Hlook eq_refl).
  destruct w as [c' sb oc ct d cfg n ts tc cs su k]. simpl in *. subst.
  unfold_callbacks. cbn. by rewrite <- app_assoc.
Qed.

Lemma rejected_stop_after_waiting_is_tolerated_witness :
  calls (step stoppingAfterWait (EvSettle 2 (Abrupt (ThrownValue "no"))))
  = calls stoppingAfterWait ++ [CallStart "l-language-server"] ∧
  suspended (step stoppingAfterWait (EvSettle 2 (Abrupt (ThrownValue "no"))))
  = removeTask 2 (suspended stoppingAfterWait) ++ [(taskCount stoppingAfterWait, AwaitStart)] ∧
  outputChannel (step stoppingAfterWait (EvSettle 2 (Abrupt (ThrownValue "no"))))
  = Some (default [] (outputChannel stoppingAfterWait)
          ++ ["[WARN] Server failed to start during wait: " +:+ toString (ThrownValue "no");
              "[INFO] Starting new server instance..."]).
Proof.
  apply (rejected_stop_after_waiting_is_tolerated stoppingAfterWait
           (mkClient Running "l-language-server" (<["RUST_LOG" := "debug"]> ∅) 100)
           (default [] (outputChannel stoppingAfterWait)) 2 (ThrownValue "no")).
  - vm_compute. reflexivity.
  - vm_compute. reflexivity.
  - vm_compute. reflexivity.
Defined.

(** ** A failed first start *)

(** X7. When the [client.start()] of [activate] rejects, one alert naming
    the reason is shown and, unless the extension is disposing, the status
    bar turns to stopped; no restart is begun and no new start is tried. *)
Theorem activation_failure_is_reported (w : World) (id : nat) (reason : Thrown) :
  is_Some (outputChannel w) →
  lookupTask id (suspended w) = Some AwaitActivateStart →
  calls (step w (EvSettle id (Abrupt reason)))
  = calls w ++ [CallShowErrorMessage
                  ("Failed to start L Language Server: " +:+ toString reason)] ∧
  suspended (step w (EvSettle id (Abrupt reason))) = removeTask id (suspended w) ∧
  statusBarItem (step w (EvSettle id (Abrupt reason)))
  = if isDisposing w then statusBarItem w else statusFor Stopped <$> statusBarItem w.
Proof.
  intros [lines Hl] Hlook. simpl.
  rewrite (lookupTask_settle w id _ _ Hlook eq_refl).
  destruct w as [c' [item|] oc ct [] cfg n ts tc cs su k]; simpl in *; subst;
    destruct reason; unfold_callbacks; cbn; done.
Qed.

Lemma activation_failure_is_reported_witness :
  calls (step activated (EvSettle 0 (Abrupt (ThrownError (mkError "Error" "spawn ENOENT" None)))))
  = calls activated
    ++ [CallShowErrorMessage
          ("Failed to start L Language Server: "
           +:+ toString (ThrownError (mkError "Error" "spawn ENOENT" None)))] ∧
  suspended (step activated
               (EvSettle 0 (Abrupt (ThrownError (mkError "Error" "spawn ENOENT" None)))))
  = removeTask 0 (suspended activated) ∧
  statusBarItem (step activated
                   (EvSettle 0 (Abrupt (ThrownError (mkError "Error" "spawn ENOENT" None)))))
  = if isDisposing activated then statusBarItem activated
    else statusFor Stopped <$> statusBarItem activated.
Proof.
  apply (activation_failure_is_reported activated 0
           (ThrownError (mkError "Error" "spawn ENOENT" None))).
  - vm_compute. eauto.
  - reflexivity.
Defined.

(** ** Restarts that wait for a transition *)

Lemma listeners_release e w :
  newState e ≠ Starting → is_Some (outputChannel w) →
  (∃ w', restartServer_startingListener e w = (Normal true, w') ∧
         suspended w' = suspended w ∧ is_Some (outputChannel w')) ∧
  (∃ w', restartServer_readyListener e w = (Normal true, w') ∧
         suspended w' = suspended w ∧ is_Some (outputChannel w')).
Proof.
  intros He [lines Hl]. destruct w as [c sb oc ct [] cfg n ts tc cs su k], e as [old []];
    simpl in *; subst; try done; unfold_callbacks; cbn; eauto 10.
Qed.

Lemma notify_releases e snapshot w :
  newState e ≠ Starting → is_Some (outputChannel w) →
  Forall (λ a, waitsForTransition a = true) (notify e snapshot w).1 ∧
  ∀ p, p ∈ suspended (notify e snapshot w).2 →
       p ∈ suspended w ∧
       ∀ q, q ∈ snapshot → waitsForTransition q.2 = true → p.1 ≠ q.1.
Proof.
  intros He. revert w. induction snapshot as [|[id a] rest IH]; intros w Hl; simpl.
  - split; [constructor|]. intros p Hp. split; [done|]. intros q Hq. by apply elem_of_nil in Hq.
  - destruct (listeners_release e w He Hl) as [(ws & Es & Hss & Hls) (wr & Er & Hsr & Hlr)].
    destruct a; cbn [waitsForTransition settledByClient negb].
    all: try (destruct (IH w Hl) as [Hres Hsus]; split; [exact Hres|];
              intros p Hp; destruct (Hsus p Hp) as [Hin Hne]; split; [done|];
              intros q [->|Hq]%elem_of_cons Hw; [discriminate|by apply Hne]).
    + rewrite Es.
      destruct (IH (set_suspended (removeTask id (suspended ws)) ws)) as [Hres Hsus];
        [by destruct ws|].
      destruct (notify e rest _) as [resolved w''] eqn:E'. simpl in *.
      split; [by constructor|].
      intros p Hp. destruct (Hsus p Hp) as [Hin Hne].
      assert (p ∈ removeTask id (suspended ws)) as Hin' by (by destruct ws).
      apply list_elem_of_filter in Hin' as [Hid Hin']. rewrite Hss in Hin'.
      split; [done|]. intros q [->|Hq]%elem_of_cons Hw; [done|by apply Hne].
    + rewrite Er.
      destruct (IH (set_suspended (removeTask id (suspended wr)) wr)) as [Hres Hsus];
        [by destruct wr|].
      destruct (notify e rest _) as [resolved w''] eqn:E'. simpl in *.
      split; [by constructor|].
      intros p Hp. destruct (Hsus p Hp) as [Hin Hne].
      assert (p ∈ removeTask id (suspended wr)) as Hin' by (by destruct wr).
      apply list_elem_of_filter in Hin' as [Hid Hin']. rewrite Hsr in Hin'.
      split; [done|]. intros q [->|Hq]%elem_of_cons Hw; [done|by apply Hne].
Qed.

Lemma resume_waiter_suspends a w :
  waitsForTransition a = true →
  ∀ p, p ∈ suspended (exec (resume a (Normal tt)) w) →
       p ∈ suspended w ∨ waitsForTransition p.2 = false.
Proof.
  intros Ha p. destruct w, a; try discriminate; unfold_callbacks;
    repeat (cbn in *; try case_match; simplify_eq); try (by left);
    intros [Hp| ->%list_elem_of_singleton]%elem_of_app; auto.
Qed.

Lemma resumeAll_waiters resolved w :
  Forall (λ a, waitsForTransition a = true) resolved →
  ∀ p, p ∈ suspended (resumeAll resolved w) →
       p ∈ suspended w ∨ waitsForTransition p.2 = false.
Proof.
  intros Hres. revert w. induction Hres as [|a rest Ha Hres IH]; intros w p; simpl; [by left|].
  intros Hp. destruct (IH _ p Hp) as [Hin|Hnot]; [|by right].
  by apply resume_waiter_suspends in Hin.
Qed.

(** X8. Where the output channel exists, a transition of the client to
    [Running] or to [Stopped] releases every restart that waits for a
    transition: none is left waiting afterwards. *)
Theorem transition_releases_waiting_restarts (w : World) (s : State) :
  is_Some (client w) → is_Some (outputChannel w) → s ≠ Starting →
  waiting (step w (EvStateChange s)) = [].
Proof.
  intros [c Hc] Hl Hs. simpl. unfold stateChange. rewrite Hc.
  set (e := mkStateChange (state c) s).
  set (w1 := set_client _ w).
  assert (is_Some (outputChannel (exec (stateChangeListener e) w1))) as Hl2.
  { apply (frame_channel _ _ (stateChangeListener_frame e w1)). by destruct w. }
  destruct (notify_releases e (suspended (exec (stateChangeListener e) w1))
              (exec (stateChangeListener e) w1) Hs Hl2) as [Hres Hsus].
  destruct (notify e _ _) as [resolved w3]. simpl in *.
  unfold waiting. apply elem_of_nil_inv. intros p [Hw Hp]%list_elem_of_filter.
  destruct (resumeAll_waiters resolved w3 Hres p Hp) as [Hin|Hnot]; [|congruence].
  destruct (Hsus p Hin) as [Hin2 Hne]. by apply (Hne p Hin2 Hw).
Qed.

Lemma transition_releases_waiting_restarts_witness :
  waiting (step awaitingReady (EvStateChange Stopped)) = [].
Proof.
  apply (transition_releases_waiting_restarts awaitingReady Stopped).
  - vm_compute. eauto.
  - vm_compute. eauto.
  - discriminate.
Defined.

(** The restart of [awaitingReady] subscribed after the client had reached
    [Running]: it is still waiting, and goes on waiting until the client
    changes state again. *)
Example restart_waits_for_the_next_transition :
  state <$> client awaitingReady = Some Running ∧
  waiting awaitingReady = [(3%nat, AwaitReady)].
Proof. vm_compute. done. Qed.

Lemma notify_starting e snapshot w :
  newState e = Starting → isDisposing w = false → notify e snapshot w = ([], w).
Proof.
  intros He Hd. induction snapshot as [|[id a] rest IH]; simpl; [done|].
  destruct a; try done.
  - unfold restartServer_startingListener, mbind, M_bind, get, mret, M_ret.
    by rewrite Hd, He.
  - unfold restartServer_readyListener, mbind, M_bind, get, mret, M_ret.
    by rewrite Hd, He.
Qed.

(** X9. While the extension is not disposing, a transition to [Starting]
    releases no waiting restart and causes no call: only the status bar
    follows it. *)
Theorem starting_releases_nothing (w : World) :
  isDisposing w = false →
  suspended (step w (EvStateChange Starting)) = suspended w ∧
  calls (step w (EvStateChange Starting)) = calls w ∧
  statusBarItem (step w (EvStateChange Starting)) =
    match client w with
    | Some _ => statusFor Starting <$> statusBarItem w
    | None => statusBarItem w
    end.
Proof.
  intros Hd. simpl. unfold stateChange. destruct (client w) as [c|] eqn:Hc; [|done].
  rewrite notify_starting; [|done|].
  - destruct w as [c' [item|] oc ct d cfg n ts tc cs su k]; simpl in *; subst; done.
  - destruct w as [c' [item|] oc ct d cfg n ts tc cs su k]; simpl in *; subst; done.
Qed.

Lemma starting_releases_nothing_witness :
  suspended (step awaitingReady (EvStateChange Starting)) = suspended awaitingReady ∧
  calls (step awaitingReady (EvStateChange Starting)) = calls awaitingReady ∧
  statusBarItem (step awaitingReady (EvStateChange Starting)) =
    match client awaitingReady with
    | Some _ => statusFor Starting <$> statusBarItem awaitingReady
    | None => statusBarItem awaitingReady
    end.
Proof. apply (starting_releases_nothing awaitingReady). reflexivity. Defined.

(** ** The status bar item *)

Ltac repaints_crush :=
  intros; unfold repaints; unfold_callbacks;
  repeat (cbn in *; try case_match; simplify_eq); try (by left);
  right; first [ by exists Stopped | by exists Starting | by exists Running ].

Lemma repaints_refl w : repaints w w.
Proof. by left. Qed.

Lemma repaints_trans w1 w2 w3 : repaints w1 w2 → repaints w2 w3 → repaints w1 w3.
Proof.
  unfold repaints. intros [->|[s1 ->]] [->|[s2 ->]]; eauto.
  right. exists s2. by destruct (statusBarItem w1), s1, s2.
Qed.

Lemma repaints_same w w' : statusBarItem w' = statusBarItem w → repaints w w'.
Proof. by left. Qed.

Lemma restartServer_repaints w : repaints w (exec restartServer w).
Proof. destruct w. repaints_crush. Qed.

Lemma resume_repaints a r w : repaints w (exec (resume a r) w).
Proof. destruct w, a, r; repaints_crush. Qed.

Lemma stateChangeListener_repaints e w : repaints w (exec (stateChangeListener e) w).
Proof. destruct w, e as [old []]; repaints_crush. Qed.

Lemma listeners_repaint e w :
  repaints w (restartServer_startingListener e w).2 ∧
  repaints w (restartServer_readyListener e w).2.
Proof. destruct w, e as [old []]; split; repaints_crush. Qed.

Lemma errorHandler_repaints error message_json count w :
  repaints w (exec (errorHandler_error error message_json count) w).
Proof. destruct w. repaints_crush. Qed.

Lemma errorHandler_closed_repaints w : repaints w (exec errorHandler_closed w).
Proof. destruct w. repaints_crush. Qed.

Lemma handleConfigurationChange_repaints ce w :
  repaints w (exec (handleConfigurationChange ce) w).
Proof. destruct w. repaints_crush. Qed.

Lemma deactivate_repaints w : repaints w (exec deactivate w).
Proof. destruct w. repaints_crush. Qed.

Lemma configChangeTimer_callback_repaints w : repaints w (exec configChangeTimer_callback w).
Proof. destruct w. repaints_crush. Qed.

Lemma notify_repaints e snapshot w : repaints w (notify e snapshot w).2.
Proof.
  revert w. induction snapshot as [|[id a] rest IH]; intros w; simpl; [apply repaints_refl|].
  destruct (listeners_repaint e w) as [Hs Hr].
  destruct a; try apply IH.
  - destruct (restartServer_startingListener e w) as [[[|]|t] w'] eqn:E; simpl in *;
      try (eapply repaints_trans; [exact Hs|apply IH]).
    destruct (notify e rest _) as [resolved w''] eqn:E'. simpl.
    pose proof (IH (set_suspended (removeTask id (suspended w')) w')) as H.
    rewrite E' in H. eapply repaints_trans; [exact Hs|].
    eapply repaints_trans; [|exact H]. apply repaints_same. by destruct w'.
  - destruct (restartServer_readyListener e w) as [[[|]|t] w'] eqn:E; simpl in *;
      try (eapply repaints_trans; [exact Hr|apply IH]).
    destruct (notify e rest _) as [resolved w''] eqn:E'. simpl.
    pose proof (IH (set_suspended (removeTask id (suspended w')) w')) as H.
    rewrite E' in H. eapply repaints_trans; [exact Hr|].
    eapply repaints_trans; [|exact H]. apply repaints_same. by destruct w'.
Qed.

Lemma resumeAll_repaints resolved w : repaints w (resumeAll resolved w).
Proof.
  revert w. induction resolved as [|a rest IH]; intros w; simpl; [apply repaints_refl|].
  eapply repaints_trans; [apply resume_repaints|apply IH].
Qed.

Lemma fireDue_repaints snapshot w : repaints w (fireDue snapshot w).
Proof.
  revert w. induction snapshot as [|[t due] rest IH]; intros w; simpl; [apply repaints_refl|].
  destruct (_ && _); [|apply IH].
  eapply repaints_trans; [|apply IH].
  eapply repaints_trans; [|apply configChangeTimer_callback_repaints].
  apply repaints_same. by destruct w.
Qed.

Lemma step_repaints w ev : afterActivation ev → repaints w (step w ev).
Proof.
  destruct ev as [node| |cfg ce|ms|s|id r|error message_json count| |]; simpl; intros Hev;
    try done.
  - apply restartServer_repaints.
  - eapply repaints_trans; [|apply handleConfigurationChange_repaints].
    apply repaints_same. by destruct w.
  - unfold elapse. eapply repaints_trans; [|apply fireDue_repaints].
    apply repaints_same. by destruct w.
  - unfold stateChange. destruct (client w) as [c|]; [|apply repaints_refl].
    match goal with |- context [notify ?e ?l ?w0] =>
      pose proof (notify_repaints e l w0) as Hn; destruct (notify e l w0) as [resolved w3] end.
    eapply repaints_trans; [|apply resumeAll_repaints].
    eapply repaints_trans; [|exact Hn].
    eapply repaints_trans; [|apply stateChangeListener_repaints].
    apply repaints_same. by destruct w.
  - unfold settle. destruct (lookupTask _ _); [|apply repaints_refl].
    destruct (settledByClient _); [|apply repaints_refl].
    eapply repaints_trans; [|apply resume_repaints]. apply repaints_same. by destruct w.
  - apply errorHandler_repaints.
  - apply errorHandler_closed_repaints.
  - apply deactivate_repaints.
Qed.

Lemma statusInv_repaints w w' : repaints w w' → statusInv w → statusInv w'.
Proof.
  unfold repaints, statusInv. intros [->|[s ->]]; [done|].
  destruct (statusBarItem w) as [item|]; simpl; [|done].
  intros [Hshown _]. split; [by destruct s|]. exists s. by destruct s.
Qed.

Lemma step_statusInv w ev : statusInv w → statusInv (step w ev).
Proof.
  intros Hi. destruct (decide (afterActivation ev)) as [Hev|Hev].
  - eapply statusInv_repaints; [by apply step_repaints|done].
  - destruct ev as [node| | | | | | | |]; try (by destruct Hev).
    simpl. unfold exec. destruct (activate_result node w) as [lines E]. rewrite E.
    unfold statusInv. cbn. split; [done|]. by exists Starting.
Qed.

(** X10. In every reachable world the status bar item, once created, is
    visible and shows one of the three renderings: the spinner, the check
    mark, or the cross; the error colour is set exactly with the cross. *)
Theorem status_bar_is_consistent (w : World) (item : StatusBarItem) :
  reachable w → statusBarItem w = Some item →
  shown item = true ∧
  (∃ s, item = statusFor s item) ∧
  (color item = Some "statusBarItem.errorForeground" ↔ text item = "$(x) L Language Server").
Proof.
  intros Hw Hs.
  assert (statusInv w) as Hi.
  { clear Hs. induction Hw; [done|by apply step_statusInv]. }
  unfold statusInv in Hi. rewrite Hs in Hi. destruct Hi as [Hshown [s Hitem]].
  split; [done|]. split; [eauto|].
  rewrite Hitem. destruct s; simpl; split; congruence.
Qed.

Lemma status_bar_is_consistent_witness :
  shown (mkStatusBarItem "$(check) L Language Server" "L Language Server is running" None true)
  = true ∧
  (∃ s, mkStatusBarItem "$(check) L Language Server" "L Language Server is running" None true
        = statusFor s
            (mkStatusBarItem "$(check) L Language Server" "L Language Server is running"
               None true)) ∧
  (color (mkStatusBarItem "$(check) L Language Server" "L Language Server is running" None true)
   = Some "statusBarItem.errorForeground"
   ↔ text (mkStatusBarItem "$(check) L Language Server" "L Language Server is running" None
             true)
     = "$(x) L Language Server").
Proof.
  apply (status_bar_is_consistent running).
  - apply (run_reachable activated), (reachable_step _ (EvActivate machine)), reachable_loaded.
  - reflexivity.
Defined.

(** ** The timeout held *)

(** X11. In every reachable world [configChangeTimer] holds a handle
    exactly while a timeout is pending, and then it is the handle of the one
    pending timeout: a handle kept after its timeout fired or was cleared
    does not occur. *)
Theorem held_timeout_is_pending (w : World) :
  reachable w →
  match configChangeTimer w with
  | Some t => ∃ due, timers w = [(t, due)]
  | None => timers w = []
  end.
Proof.
  intros Hw. pose proof (reachable_timersInv w Hw) as Hinv. unfold timersInv in Hinv.
  destruct (configChangeTimer w) as [t|]; simpl in Hinv.
  - destruct (timers w) as [|[t' due] [|]]; simplify_eq/=. eauto.
  - by apply fmap_nil_inv in Hinv.
Qed.

Lemma held_timeout_is_pending_witness :
  match configChangeTimer edited with
  | Some t => ∃ due, timers edited = [(t, due)]
  | None => timers edited = []
  end.
Proof.
  apply (held_timeout_is_pending edited).
  apply (reachable_step _ (EvConfigurationChange _ _)), (run_reachable activated),
    (reachable_step _ (EvActivate machine)), reachable_loaded.
Defined.

(** ** The search among the candidates *)

(** X12. The search stops at the first candidate that exists: what comes
    after it in the list is neither checked nor logged, so the result and
    the world left are those of the search up to that candidate. *)
Theorem findServer_stops_at_first_hit (node : Node) (paths rest : list string) (w : World) :
  is_Some (find (λ p, found (existsSync node p)) paths) →
  findServer node (paths ++ rest) w = findServer node paths w.
Proof.
  revert w. induction paths as [|p paths IH]; intros w [q Hq]; [done|].
  simpl in Hq. simpl.
  unfold mbind, M_bind, appendLine, try_catch, lift, mret, M_ret.
  destruct (outputChannel w) as [lines|]; [|done].
  destruct (existsSync node p) as [[|]|t]; simpl in *.
  - done.
  - apply IH. eauto.
  - apply IH. eauto.
Qed.

Lemma findServer_stops_at_first_hit_witness :
  findServer (linux ∅ ["/b"]) (["/a"; "/b"] ++ ["/c"; "/d"]) (set_outputChannel (Some []) (loaded settings))
  = findServer (linux ∅ ["/b"]) ["/a"; "/b"] (set_outputChannel (Some []) (loaded settings)).
Proof.
  apply (findServer_stops_at_first_hit (linux ∅ ["/b"]) ["/a"; "/b"] ["/c"; "/d"]).
  vm_compute. eauto.
Defined.

(** ** What a configuration change does to the timer *)

(** X17. In a reachable world with a client, a configuration change that
    affects the section and not the trace key cancels the timeout held, if
    one is held, and arms a new one of 1000 ms, which becomes the only
    pending timeout; this does not depend on the disposing flag.  Any other
    change makes no call and leaves the timers as they are. *)
Theorem configuration_change_rearms (w : World) (cfg : Configuration)
    (e : ConfigurationChangeEvent) :
  reachable w → is_Some (client w) →
  if affectsConfiguration e "l-language-server"
     && negb (affectsConfiguration e "l-language-server.trace.server")
  then
    calls (step w (EvConfigurationChange cfg e))
    = calls w ++ (CallClearTimeout <$> option_list (configChangeTimer w))
              ++ [CallSetTimeout (timeoutCount w) 1000] ∧
    configChangeTimer (step w (EvConfigurationChange cfg e)) = Some (timeoutCount w) ∧
    timers (step w (EvConfigurationChange cfg e)) = [(timeoutCount w, (now w + 1000)%nat)]
  else
    calls (step w (EvConfigurationChange cfg e)) = calls w ∧
    configChangeTimer (step w (EvConfigurationChange cfg e)) = configChangeTimer w ∧
    timers (step w (EvConfigurationChange cfg e)) = timers w.
Proof.
  intros Hw Hc. destruct (client_has_channel w Hw Hc) as [lines Hl].
  pose proof (reachable_timersInv w Hw) as Hinv. unfold timersInv in Hinv.
  destruct w as [c' sb oc ct d cfg' n ts tc cs su k]. simpl in *. subst.
  unfold_callbacks. cbn.
  destruct (affectsConfiguration e "l-language-server"); cbn; [|done].
  destruct (affectsConfiguration e "l-language-server.trace.server"); cbn; [done|].
  destruct ct as [t|]; cbn.
  - destruct ts as [|[t' due] [|]]; simplify_eq/=.
    rewrite filter_cons_False by (simpl; tauto). cbn. by rewrite <- app_assoc.
  - destruct ts; simplify_eq/=. done.
Qed.

Lemma configuration_change_rearms_witness :
  calls (step edited (EvConfigurationChange settings
                        (changeOf ["l-language-server.maxNumberOfProblems"])))
  = calls edited ++ (CallClearTimeout <$> option_list (configChangeTimer edited))
                 ++ [CallSetTimeout (timeoutCount edited) 1000] ∧
  configChangeTimer (step edited (EvConfigurationChange settings
                                    (changeOf ["l-language-server.maxNumberOfProblems"])))
  = Some (timeoutCount edited) ∧
  timers (step edited (EvConfigurationChange settings
                         (changeOf ["l-language-server.maxNumberOfProblems"])))
  = [(timeoutCount edited, (now edited + 1000)%nat)].
Proof.
  apply (configuration_change_rearms edited settings
           (changeOf ["l-language-server.maxNumberOfProblems"])).
  - apply (reachable_step _ (EvConfigurationChange _ _)), (run_reachable activated),
      (reachable_step _ (EvActivate machine)), reachable_loaded.
  - vm_compute. eauto.
Defined.

(** ** The earlier lookup *)

Lemma executable_candidates_truthy node segments :
  truthy (path_join node segments) = true.
Proof.
  unfold truthy. rewrite bool_decide_eq_false_2; [done|]. apply path_join_nonempty.
Qed.

(** X13. The current lookup extends the earlier one: with no explicit
    server path configured and no release build present, the command the
    earlier revision selects, when its unguarded checks let it select one,
    is the command the current revision selects. *)
Theorem current_lookup_extends_earlier (node : Node) (cfg : Configuration)
    (w w' : Previous.World) (cmd : string) :
  trim (default "" (serverPath cfg)) = "" →
  found (existsSync node
           (path_join node [dirname node; ".."; ".."; "target"; "release";
                            executableName node])) = false →
  found (existsSync node
           (path_join node [dirname node; ".."; ".."; ".."; "target"; "release";
                            executableName node])) = false →
  Previous.selectServer node w = (Normal cmd, w') →
  documentedOrder node cfg = cmd.
Proof.
  intros Ht Hr1 Hr2. unfold documentedOrder, Previous.selectServer, Previous.searchServer.
  rewrite (bool_decide_eq_false_2 (trim _ ≠ "")) by tauto.
  assert (∀ w0, Previous.findServer node (Previous.possiblePaths node) w0
                = (Normal (find (λ p, found (existsSync node p)) (possiblePaths node)),
                   (Previous.findServer node (Previous.possiblePaths node) w0).2)
                ∨ ∃ t, (Previous.findServer node (Previous.possiblePaths node) w0).1 = Abrupt t)
    as Hfind.
  { intros w0. unfold Previous.possiblePaths, possiblePaths. simpl.
    rewrite Hr1, Hr2.
    destruct (existsSync node (path_join node [_; _; _; _; "debug"; _])) as [[|]|t];
      simpl; eauto.
    destruct (existsSync node (path_join node [_; _; _; _; _; "debug"; _])) as [[|]|t'];
      simpl; eauto.
    destruct (existsSync node "l-language-server") as [[|]|t'']; simpl; eauto. }
  assert (∀ w0, Previous.searchServer node w0 = (Normal cmd, w') →
                default "l-language-server"
                  (find (λ p, found (existsSync node p)) (possiblePaths node)) = cmd)
    as Hsearch.
  { intros w0. unfold Previous.searchServer.
    destruct (Hfind (Previous.log [Previous.Text "Searching for server in possible paths:";
                                   Previous.Texts (Previous.possiblePaths node)] w0))
      as [E|[t E]].
    - rewrite E. destruct (find _ _) as [p|] eqn:Ef; simpl.
      + assert (truthy p = true) as ->.
        { apply find_some in Ef as [Hin _]. apply list_elem_of_In in Hin.
          unfold truthy. rewrite bool_decide_eq_false_2; [done|].
          by apply possiblePaths_nonempty in Hin. }
        congruence.
      + congruence.
    - destruct (Previous.findServer _ _ _) as [[[p|]|t'] w1]; simpl in E; congruence. }
  fold (Previous.searchServer node w).
  destruct (env node !! "SERVER_PATH") as [p|].
  - unfold truthy. destruct (decide (p = "")) as [->|Hp].
    + rewrite bool_decide_eq_true_2 by done. simpl. apply Hsearch.
    + rewrite (bool_decide_eq_false_2 (p = "")), (bool_decide_eq_true_2 (p ≠ "")) by done.
      simpl. congruence.
  - apply Hsearch.
Qed.

Lemma current_lookup_extends_earlier_witness :
  documentedOrder (linux ∅ ["/ext/dist/../../../target/debug/l-language-server"]) settings
  = "/ext/dist/../../../target/debug/l-language-server".
Proof.
  apply (current_lookup_extends_earlier
           (linux ∅ ["/ext/dist/../../../target/debug/l-language-server"]) settings
           (Previous.mkWorld None [] 0 0)
           (Previous.selectServer (linux ∅ ["/ext/dist/../../../target/debug/l-language-server"])
              (Previous.mkWorld None [] 0 0)).2); reflexivity.
Defined.

Lemma earlier_findServer_aborts node paths p t w :
  Previous.firstDecisive node paths = Some p → existsSync node p = Abrupt t →
  (Previous.findServer node paths w).1 = Abrupt t ∧
  Previous.client (Previous.findServer node paths w).2 = Previous.client w ∧
  Previous.starts (Previous.findServer node paths w).2 = Previous.starts w.
Proof.
  unfold Previous.firstDecisive. revert w.
  induction paths as [|q paths IH]; intros w Hf Ht; [done|]. simpl in *.
  destruct (existsSync node q) as [[|]|t'] eqn:E; simplify_eq/=.
  - congruence.
  - by destruct (IH (Previous.log [Previous.Text "Checking path:"; Previous.Text q] w) Hf Ht)
      as (H1 & H2 & H3).
  - rewrite E in Ht. by simplify_eq.
Qed.

(** X14. In the earlier revision the existence checks are not guarded:
    with no override in the environment, if the first check that does not
    come back false throws, [activate] throws the same value, constructs no
    client and starts nothing. *)
Theorem earlier_activate_aborts_on_throwing_check (node : Node) (w : Previous.World)
    (p : string) (t : Thrown) :
  env node !! "SERVER_PATH" = None →
  Previous.firstDecisive node (Previous.possiblePaths node) = Some p →
  existsSync node p = Abrupt t →
  (Previous.activate node w).1 = Abrupt t ∧
  Previous.client (Previous.activate node w).2 = Previous.client w ∧
  Previous.starts (Previous.activate node w).2 = Previous.starts w.
Proof.
  intros He Hf Ht. unfold Previous.activate, Previous.selectServer, Previous.searchServer.
  rewrite He.
  destruct (earlier_findServer_aborts node (Previous.possiblePaths node) p t
              (Previous.log [Previous.Text "Searching for server in possible paths:";
                             Previous.Texts (Previous.possiblePaths node)] w) Hf Ht)
    as (H1 & H2 & H3).
  destruct (Previous.findServer _ _ _) as [[[q|]|t'] w1]; simpl in *; simplify_eq. done.
Qed.

Lemma earlier_activate_aborts_on_throwing_check_witness :
  (Previous.activate refusing (Previous.mkWorld None [] 0 0)).1 = Abrupt (ThrownValue "EACCES") ∧
  Previous.client (Previous.activate refusing (Previous.mkWorld None [] 0 0)).2
  = Previous.client (Previous.mkWorld None [] 0 0) ∧
  Previous.starts (Previous.activate refusing (Previous.mkWorld None [] 0 0)).2
  = Previous.starts (Previous.mkWorld None [] 0 0).
Proof.
  apply (earlier_activate_aborts_on_throwing_check refusing (Previous.mkWorld None [] 0 0)
           "/ext/dist/../../target/debug/l-language-server" (ThrownValue "EACCES"));
    reflexivity.
Defined.

(** ** The build script *)


Lemma report_never_finishes messages :
  (Build.BuildFinished ∉ Build.report messages) ∧ (Build.BuildStarted ∉ Build.report messages).
Proof.
  induction messages as [|m messages [IH1 IH2]]; simpl; [set_solver|].
  case_bool_decide; [|done].
  destruct (Build.position m) as [[[file line] column]|]; set_solver.
Qed.

(** X16. The script exits with code 1 exactly when the build rejects or
    reports no success, and prints that the build finished exactly when it
    reports success.  The flag [--watch] adds the line that the build
    started and changes nothing else: the script builds once. *)
Theorem script_outcome (argv : list string) (built : completion Build.BuildOutput) :
  ((Build.script argv built).2 = Some 1%Z ↔
   match built with
   | Normal result => Build.success result = false
   | Abrupt _ => True
   end) ∧
  (Build.BuildFinished ∈ (Build.script argv built).1 ↔
   match built with
   | Normal result => Build.success result = true
   | Abrupt _ => False
   end) ∧
  Build.script argv built
  = ((if Build.watch argv then [Build.BuildStarted] else []) ++ (Build.guarded built).1,
     (Build.guarded built).2).
Proof.
  unfold Build.script, Build.guarded, Build.main.
  destruct built as [[[] messages]|t], (Build.watch argv); simpl;
    pose proof (report_never_finishes messages) as [H1 H2] || idtac;
    repeat split; try done; try set_solver.
Qed.
